(** * The article repository of NewsProject, over a model of its storage engine

    Sources embedded here:
    - [src/app/config/database.py]: [DatabaseConfig.get_connection],
      [DatabaseConfig.test_connection];
    - [src/app/models/article.py]: the [Article] class, its constructor,
      [from_dict] and every method that talks to the database ([to_dict]
      only formats an Article for JSON and is left out).

    The Python code talks to PostgreSQL through psycopg2.  The statements it
    sends are fixed strings; each one is given its meaning on a small model of
    the server: one table [articles] keyed by its primary key, the sequence
    behind the [SERIAL] column, the server clock, and the connections that are
    currently open, each with the transaction it has begun.

    Scope of the model:
    - one client at a time (no lock waits, no concurrent sessions);
    - a connection attempt may fail ([net]); once a connection is open the
      server answers every statement, so a statement only raises for a reason
      the data gives (unique, not-null, length, sequence limit, missing
      table, failed transaction, closed connection);
    - the server clock is a number the environment moves; a transaction
      reads it once, when it begins ([CURRENT_TIMESTAMP]);
    - [print] calls are not modelled;
    - text is [string] (a character is an [ascii]); ILIKE folds case on the
      letters A-Z. *)

From Stdlib Require Import ZArith Ascii String.
From stdpp Require Import gmap strings list sorting.

Local Open Scope Z_scope.

(** ** Text helpers *)

Fixpoint all_spaces (s : string) : bool :=
  match s with
  | EmptyString => true
  | String c s' => if decide (c = " "%char) then all_spaces s' else false
  end.

(** Assignment to a [VARCHAR(n)] column: a longer value is an error unless
    the excess is spaces only, in which case it is cut to [n] characters. *)
Definition varchar (n : nat) (s : string) : option string :=
  if decide (String.length s ≤ n)%nat then Some s
  else if all_spaces (substring n (String.length s - n) s)
       then Some (substring 0 n s)
       else None.

(** The escape character of LIKE, code 92. *)
Definition backslash : ascii :=
  Ascii false false true true true false true false.

Definition to_lower (c : ascii) : ascii :=
  let n := N_of_ascii c in
  if decide (65 ≤ n ∧ n ≤ 90)%N then ascii_of_N (n + 32) else c.

Definition ieq (c d : ascii) : bool := bool_decide (to_lower c = to_lower d).

(** ** LIKE patterns

    [%] matches any run of characters, [_] any single character, and a
    backslash makes the next character literal.  A pattern that ends in a
    lone backslash is rejected by the server. *)
Inductive like_tok := LAny | LOne | LChar (c : ascii).

Fixpoint like_tokens (p : string) : option (list like_tok) :=
  match p with
  | EmptyString => Some []
  | String c p' =>
      if decide (c = "%"%char) then cons LAny <$> like_tokens p'
      else if decide (c = "_"%char) then cons LOne <$> like_tokens p'
      else if decide (c = backslash) then
        match p' with
        | EmptyString => None
        | String d p'' => cons (LChar d) <$> like_tokens p''
        end
      else cons (LChar c) <$> like_tokens p'
  end.

Fixpoint like_match (p : list like_tok) (s : string) {struct p} : bool :=
  match p with
  | [] => match s with EmptyString => true | _ => false end
  | LAny :: p' =>
      (fix skip (s : string) : bool :=
         like_match p' s ||
         match s with EmptyString => false | String _ s' => skip s' end) s
  | LOne :: p' =>
      match s with EmptyString => false | String _ s' => like_match p' s' end
  | LChar c :: p' =>
      match s with
      | EmptyString => false
      | String d s' => ieq c d && like_match p' s'
      end
  end.

(** [s ILIKE p]; [None] when the pattern is rejected. *)
Definition ilike (s p : string) : option bool :=
  (λ toks, like_match toks s) <$> like_tokens p.

(** ** The storage engine *)

(** A row of [articles]; the primary key is the key of the table map.
    [title] is NOT NULL; the two timestamps are only ever written from
    [CURRENT_TIMESTAMP]. *)
Record row := Row {
  col_title : string;
  col_raw_content : option string;
  col_direct_link : option string;
  col_created_at : Z;
  col_updated_at : Z
}.

Record table := Table {
  rows : gmap Z row;
  indexes : list string
}.

Inductive exn :=
  | OperationalError          (* the connection could not be opened *)
  | InterfaceError            (* the connection is already closed *)
  | UniqueViolation
  | NotNullViolation
  | StringDataRightTruncation (* value too long for VARCHAR(n) *)
  | SequenceLimit             (* nextval: reached maximum value *)
  | UndefinedTable
  | DuplicateTable
  | InvalidEscapeSequence     (* LIKE pattern ends with the escape character *)
  | InFailedSqlTransaction
  | TypeError                 (* subscript of None on the Python side *)
  | KeyError.                 (* a column the result does not carry *)

Record column_desc := Column {
  column_name : string;
  data_type : string;
  character_maximum_length : option Z;
  is_nullable : bool;
  column_default : option string
}.

(** What a [RealDictCursor] hands back, one constructor per column list the
    code selects. *)
Inductive drow :=
  | ArticleRow (i : Z) (r : row)                 (* SELECT * FROM articles *)
  | InsertedRow (i created updated : Z)          (* RETURNING id, created_at, updated_at *)
  | UpdatedRow (updated : Z)                     (* RETURNING updated_at *)
  | TableNameRow (name : string)
  | ColumnRow (c : column_desc)
  | OneRow.                                      (* SELECT 1 *)

Record result := Result { fetched : list drow; rowcount : Z }.

(** The statements the code sends, with their parameters. *)
Inductive stmt :=
  | SelectOne
  | DropTableIfExists
  | CreateTable
  | CreateIndexes
  | SelectTableName
  | SelectColumns
  | InsertArticle (title raw_content direct_link : option string)
  | UpdateArticle (title raw_content direct_link : option string) (i : option Z)
  | SelectAll
  | SelectById (i : Z)
  | SelectByLink (direct_link : option string)
  | DeleteById (i : option Z)
  | SelectILike (pattern : string).

Definition serial_max : Z := 2147483647.

Definition articles_columns : list column_desc :=
  [ Column "id" "integer" None false (Some "nextval('articles_id_seq'::regclass)");
    Column "title" "character varying" (Some 500) false None;
    Column "raw_content" "text" None true None;
    Column "direct_link" "character varying" (Some 1000) true None;
    Column "created_at" "timestamp without time zone" None true (Some "CURRENT_TIMESTAMP");
    Column "updated_at" "timestamp without time zone" None true (Some "CURRENT_TIMESTAMP") ].

(** [ORDER BY created_at DESC]. *)
Definition newer (x y : Z * row) : Prop := col_created_at y.2 ≤ col_created_at x.2.

Global Instance newer_dec x y : Decision (newer x y).
Proof. unfold newer. apply _. Defined.

Definition order_by_created_desc (l : list (Z * row)) : list (Z * row) :=
  merge_sort newer l.

Definition as_article_rows (l : list (Z * row)) : list drow :=
  (λ p, ArticleRow p.1 p.2) <$> l.

(** Some row other than [i] already holds the link [l]. *)
Definition link_taken (m : gmap Z row) (i : Z) (l : string) : bool :=
  bool_decide (map_Exists (λ j r, j ≠ i ∧ col_direct_link r = Some l) m).

(** The outcome of one statement: the sequence after it (a sequence is not
    rolled back), and either the error or the new table and the result set. *)
Definition outcome : Type := Z * (exn + (option table * result)).

Definition no_rows : result := Result [] (-1).

(** [INSERT INTO articles (title, raw_content, direct_link) VALUES (...)
    RETURNING id, created_at, updated_at].  The length coercions are folded
    before execution; the row is then formed ([nextval] for [id], the clock
    for both timestamps), checked for NOT NULL and entered in the unique
    index of [direct_link], where NULL never collides. *)
Definition run_insert (now sq : Z) (t : table)
    (title raw_content direct_link : option string) : outcome :=
  match varchar 500 <$> title, varchar 1000 <$> direct_link with
  | Some None, _ | _, Some None => (sq, inl StringDataRightTruncation)
  | title', link' =>
      if decide (serial_max < sq) then (sq, inl SequenceLimit)
      else
        match mjoin title' with
        | None => (sq + 1, inl NotNullViolation)
        | Some ti =>
            if decide (is_Some (rows t !! sq)) then (sq + 1, inl UniqueViolation)
            else if from_option (link_taken (rows t) sq) false (mjoin link')
            then (sq + 1, inl UniqueViolation)
            else
              let r := Row ti raw_content (mjoin link') now now in
              (sq + 1,
               inr (Some (Table (<[sq := r]> (rows t)) (indexes t)),
                    Result [InsertedRow sq now now] 1))
        end
  end.

(** [UPDATE articles SET title, raw_content, direct_link,
    updated_at = CURRENT_TIMESTAMP WHERE id = i RETURNING updated_at].
    Constraints are checked on the row that is written, so none is when no
    row has the id; [id = NULL] holds of no row. *)
Definition run_update (now sq : Z) (t : table)
    (title raw_content direct_link : option string) (i : Z) : outcome :=
  match varchar 500 <$> title, varchar 1000 <$> direct_link with
  | Some None, _ | _, Some None => (sq, inl StringDataRightTruncation)
  | title', link' =>
      match rows t !! i with
      | None => (sq, inr (Some t, Result [] 0))
      | Some old =>
          match mjoin title' with
          | None => (sq, inl NotNullViolation)
          | Some ti =>
              if from_option (link_taken (rows t) i) false (mjoin link')
              then (sq, inl UniqueViolation)
              else
                let r := Row ti raw_content (mjoin link') (col_created_at old) now in
                (sq,
                 inr (Some (Table (<[i := r]> (rows t)) (indexes t)),
                      Result [UpdatedRow now] 1))
          end
      end
  end.

Definition add_index (name : string) (ix : list string) : list string :=
  if decide (name ∈ ix) then ix else ix ++ [name].

(** The meaning of a statement at transaction time [now], on sequence [sq]
    and on the table as the transaction sees it ([None]: no such table). *)
Definition run_stmt (q : stmt) (now sq : Z) (db : option table) : outcome :=
  match q, db with
  | SelectOne, _ => (sq, inr (db, Result [OneRow] 1))
  | DropTableIfExists, _ => (sq, inr (None, no_rows))
  | CreateTable, Some _ => (sq, inl DuplicateTable)
  | CreateTable, None => (1, inr (Some (Table ∅ []), no_rows))
  | CreateIndexes, None => (sq, inl UndefinedTable)
  | CreateIndexes, Some t =>
      (sq, inr (Some (Table (rows t)
                        (add_index "idx_articles_direct_link"
                           (add_index "idx_articles_title" (indexes t)))),
                no_rows))
  | SelectTableName, None => (sq, inr (db, Result [] 0))
  | SelectTableName, Some _ => (sq, inr (db, Result [TableNameRow "articles"] 1))
  | SelectColumns, None => (sq, inr (db, Result [] 0))
  | SelectColumns, Some _ =>
      (sq, inr (db, Result (ColumnRow <$> articles_columns) 6))
  | _, None => (sq, inl UndefinedTable)
  | InsertArticle ti rc dl, Some t => run_insert now sq t ti rc dl
  | UpdateArticle ti rc dl (Some i), Some t => run_update now sq t ti rc dl i
  | UpdateArticle ti rc dl None, Some t =>
      match varchar 500 <$> ti, varchar 1000 <$> dl with
      | Some None, _ | _, Some None => (sq, inl StringDataRightTruncation)
      | _, _ => (sq, inr (db, Result [] 0))
      end
  | SelectAll, Some t =>
      let l := order_by_created_desc (map_to_list (rows t)) in
      (sq, inr (db, Result (as_article_rows l) (Z.of_nat (length l))))
  | SelectById i, Some t =>
      match rows t !! i with
      | Some r => (sq, inr (db, Result [ArticleRow i r] 1))
      | None => (sq, inr (db, Result [] 0))
      end
  | SelectByLink dl, Some t =>
      let l := filter (λ p, is_Some dl ∧ col_direct_link p.2 = dl)
                 (map_to_list (rows t)) in
      (sq, inr (db, Result (as_article_rows l) (Z.of_nat (length l))))
  | DeleteById None, Some t => (sq, inr (db, Result [] 0))
  | DeleteById (Some i), Some t =>
      match rows t !! i with
      | Some _ => (sq, inr (Some (Table (delete i (rows t)) (indexes t)),
                           Result [] 1))
      | None => (sq, inr (db, Result [] 0))
      end
  | SelectILike pat, Some t =>
      match like_tokens pat with
      | None => (sq, inl InvalidEscapeSequence)
      | Some toks =>
          let l := order_by_created_desc
                     (filter (λ p, like_match toks (col_title p.2) = true)
                        (map_to_list (rows t))) in
          (sq, inr (db, Result (as_article_rows l) (Z.of_nat (length l))))
      end
  end.

(** ** Connections and transactions *)

(** The transaction a connection has begun: what it sees of the table, the
    instant it began ([CURRENT_TIMESTAMP]), whether a statement failed. *)
Record txn := Txn { snap : option table; started : Z; failed : bool }.

Record world := World {
  committed : option table;   (* the table as committed; [None]: absent *)
  articles_id_seq : Z;        (* next value of the SERIAL sequence *)
  clock : Z;                  (* the server clock *)
  net : list bool;            (* fate of the coming connection attempts *)
  conns : gmap nat (option txn);  (* open connections *)
  next_conn : nat
}.

(** ** A state and exception monad for the Python side *)

Inductive res (A : Type) := Ok (a : A) | Raise (e : exn).
Arguments Ok {A} a.
Arguments Raise {A} e.

Definition M (S A : Type) : Type := S → res A * S.

Definition ret {S A} (a : A) : M S A := λ s, (Ok a, s).
Definition raise {S A} (e : exn) : M S A := λ s, (Raise e, s).
Definition bind {S A B} (m : M S A) (k : A → M S B) : M S B :=
  λ s, match m s with
       | (Ok a, s') => k a s'
       | (Raise e, s') => (Raise e, s')
       end.

(** [try: body except Exception as e: handler]. *)
Definition try_except {S A} (body : M S A) (handler : exn → M S A) : M S A :=
  λ s, match body s with
       | (Ok a, s') => (Ok a, s')
       | (Raise e, s') => handler e s'
       end.

Global Instance M_ret {S} : MRet (M S) := λ A, ret.
Global Instance M_bind {S} : MBind (M S) := λ A B k m, bind m k.

Definition get {S} : M S S := λ s, (Ok s, s).
Definition modify {S} (f : S → S) : M S () := λ s, (Ok (), f s).

(** Run a computation on the second component of the state (the world),
    leaving the first (the object [self]) alone. *)
Definition on_world {O W A} (m : M W A) : M (O * W) A :=
  λ s, let '(r, w') := m s.2 in (r, (s.1, w')).

(** ** psycopg2 *)

Definition set_conns (f : gmap nat (option txn) → gmap nat (option txn))
    (w : world) : world :=
  World (committed w) (articles_id_seq w) (clock w) (net w) (f (conns w))
        (next_conn w).

(** [psycopg2.connect(...)]: the head of [net] decides; an exhausted [net]
    means the server is reachable. *)
Definition connect : M world nat := λ w,
  match net w with
  | false :: rest =>
      (Raise OperationalError,
       World (committed w) (articles_id_seq w) (clock w) rest (conns w)
             (next_conn w))
  | _ =>
      let c := next_conn w in
      (Ok c,
       World (committed w) (articles_id_seq w) (clock w) (tail (net w))
             (<[c := None]> (conns w)) (S c))
  end.

(** [cursor.execute(query, params)]: the first statement on a connection
    begins its transaction; a statement in a failed transaction is refused;
    a statement that raises fails the transaction. *)
Definition execute (c : nat) (q : stmt) : M world result := λ w,
  match conns w !! c with
  | None => (Raise InterfaceError, w)
  | Some o =>
      let t := default (Txn (committed w) (clock w) false) o in
      if failed t then
        (Raise InFailedSqlTransaction, set_conns <[c := Some t]> w)
      else
        match run_stmt q (started t) (articles_id_seq w) (snap t) with
        | (sq, inl e) =>
            (Raise e,
             World (committed w) sq (clock w) (net w)
                   (<[c := Some (Txn (snap t) (started t) true)]> (conns w))
                   (next_conn w))
        | (sq, inr (db, r)) =>
            (Ok r,
             World (committed w) sq (clock w) (net w)
                   (<[c := Some (Txn db (started t) false)]> (conns w))
                   (next_conn w))
        end
  end.

(** [conn.commit()]: what the transaction wrote becomes the committed table;
    a failed transaction is rolled back instead. *)
Definition commit (c : nat) : M world () := λ w,
  match conns w !! c with
  | None => (Raise InterfaceError, w)
  | Some None => (Ok (), w)
  | Some (Some t) =>
      (Ok (),
       World (if failed t then committed w else snap t) (articles_id_seq w)
             (clock w) (net w) (<[c := None]> (conns w)) (next_conn w))
  end.

(** [conn.close()]: an uncommitted transaction is discarded; closing twice is
    allowed. *)
Definition close (c : nat) : M world () :=
  modify (set_conns (delete c)).

(** [cursor.fetchone()] and [cursor.fetchall()], right after [execute]. *)
Definition fetchone (r : result) : option drow := head (fetched r).
Definition fetchall (r : result) : list drow := fetched r.

(** ** [src/app/config/database.py] *)

(** [DatabaseConfig.get_connection]: connect, print and re-raise on error. *)
Definition get_connection : M world nat :=
  try_except connect (λ e, raise e).

(** [DatabaseConfig.test_connection]. *)
Definition test_connection : M world bool :=
  try_except
    (conn ← get_connection;
     cursor ← execute conn SelectOne;
     let result := fetchone cursor in
     close conn;;
     mret (bool_decide (is_Some result)))
    (λ _, mret false).

(** ** [src/app/models/article.py] *)

(** Python truthiness of an [Optional[int]]: [None] and [0] are false. *)
Definition truthy (i : option Z) : bool :=
  match i with
  | Some n => bool_decide (n ≠ 0)
  | None => false
  end.

(** [result['id']], [result['created_at']], [result['updated_at']] on what
    [fetchone] returned. *)
Definition item_id {S} (result : option drow) : M S Z :=
  match result with
  | None => raise TypeError
  | Some (ArticleRow i _) | Some (InsertedRow i _ _) => mret i
  | Some _ => raise KeyError
  end.

Definition item_created_at {S} (result : option drow) : M S Z :=
  match result with
  | None => raise TypeError
  | Some (ArticleRow _ r) => mret (col_created_at r)
  | Some (InsertedRow _ c _) => mret c
  | Some _ => raise KeyError
  end.

Definition item_updated_at {S} (result : option drow) : M S Z :=
  match result with
  | None => raise TypeError
  | Some (ArticleRow _ r) => mret (col_updated_at r)
  | Some (InsertedRow _ _ u) | Some (UpdatedRow u) => mret u
  | Some _ => raise KeyError
  end.

Module Article.

(** The instance attributes.  [None] is Python's [None]. *)
Record t := Make {
  id : option Z;
  title : option string;
  raw_content : option string;
  direct_link : option string;
  created_at : option Z;
  updated_at : option Z
}.

(** [Article.__init__]: an argument left out ([None] here) takes its
    default, [None] for [id] and the timestamps and the empty string for the
    three texts. *)
Definition __init__ (id : option Z) (title raw_content direct_link : option string)
    (created_at updated_at : option Z) : t :=
  Make id (Some (default EmptyString title)) (Some (default EmptyString raw_content))
       (Some (default EmptyString direct_link)) created_at updated_at.

(** [Article.from_dict] on a row of a [RealDictCursor]: [data.get] of a
    column the row lacks gives the default. *)
Definition from_dict (data : drow) : t :=
  match data with
  | ArticleRow i r =>
      Make (Some i) (Some (col_title r)) (col_raw_content r)
           (col_direct_link r) (Some (col_created_at r)) (Some (col_updated_at r))
  | InsertedRow i c u => Make (Some i) (Some EmptyString) (Some EmptyString) (Some EmptyString) (Some c) (Some u)
  | UpdatedRow u => Make None (Some EmptyString) (Some EmptyString) (Some EmptyString) None (Some u)
  | _ => Make None (Some EmptyString) (Some EmptyString) (Some EmptyString) None None
  end.

(** A method runs on the pair of [self] and the world. *)
Definition self {W} : M (t * W) t := λ s, (Ok s.1, s).
Definition set_id {W} (v : option Z) : M (t * W) () :=
  modify (λ s, (Make v (title s.1) (raw_content s.1) (direct_link s.1)
                     (created_at s.1) (updated_at s.1), s.2)).
Definition set_created_at {W} (v : option Z) : M (t * W) () :=
  modify (λ s, (Make (id s.1) (title s.1) (raw_content s.1) (direct_link s.1)
                     v (updated_at s.1), s.2)).
Definition set_updated_at {W} (v : option Z) : M (t * W) () :=
  modify (λ s, (Make (id s.1) (title s.1) (raw_content s.1) (direct_link s.1)
                     (created_at s.1) v, s.2)).

Definition table_exists : M world bool :=
  try_except
    (conn ← get_connection;
     cursor ← execute conn SelectTableName;
     let result := fetchone cursor in
     close conn;;
     mret (bool_decide (is_Some result)))
    (λ _, mret false).

Definition create_table : M world bool :=
  try_except
    (conn ← get_connection;
     execute conn DropTableIfExists;;
     execute conn CreateTable;;
     execute conn CreateIndexes;;
     commit conn;;
     close conn;;
     verified ← table_exists;
     if (verified : bool) then mret true else mret false)
    (λ _, mret false).

Definition get_table_structure : M world (list drow) :=
  try_except
    (conn ← get_connection;
     cursor ← execute conn SelectColumns;
     let results := fetchall cursor in
     close conn;;
     mret results)
    (λ _, mret []).

Definition _insert : M (t * world) (option Z) :=
  try_except
    (conn ← on_world get_connection;
     s ← self;
     cursor ← on_world (execute conn
                 (InsertArticle (title s) (raw_content s) (direct_link s)));
     let result := fetchone cursor in
     i ← item_id result; set_id (Some i);;
     c ← item_created_at result; set_created_at (Some c);;
     u ← item_updated_at result; set_updated_at (Some u);;
     on_world (commit conn);;
     on_world (close conn);;
     s ← self;
     mret (id s))
    (λ _, mret None).

Definition _update : M (t * world) (option Z) :=
  try_except
    (conn ← on_world get_connection;
     s ← self;
     cursor ← on_world (execute conn
                 (UpdateArticle (title s) (raw_content s) (direct_link s) (id s)));
     let result := fetchone cursor in
     if bool_decide (is_Some result) then
       u ← item_updated_at result; set_updated_at (Some u);;
       on_world (commit conn);;
       on_world (close conn);;
       s ← self;
       mret (id s)
     else
       on_world (close conn);;
       mret None)
    (λ _, mret None).

Definition save : M (t * world) (option Z) :=
  s ← self;
  if truthy (id s) then _update else _insert.

Definition get_all : M world (list t) :=
  try_except
    (conn ← get_connection;
     cursor ← execute conn SelectAll;
     let results := fetchall cursor in
     close conn;;
     mret (from_dict <$> results))
    (λ _, mret []).

Definition get_by_id (article_id : Z) : M world (option t) :=
  try_except
    (conn ← get_connection;
     cursor ← execute conn (SelectById article_id);
     let result := fetchone cursor in
     close conn;;
     mret (from_dict <$> result))
    (λ _, mret None).

Definition get_by_link (direct_link : option string) : M world (option t) :=
  try_except
    (conn ← get_connection;
     cursor ← execute conn (SelectByLink direct_link);
     let result := fetchone cursor in
     close conn;;
     mret (from_dict <$> result))
    (λ _, mret None).

Definition delete : M (t * world) bool :=
  s ← self;
  if negb (truthy (id s)) then mret false
  else
    try_except
      (conn ← on_world get_connection;
       cursor ← on_world (execute conn (DeleteById (id s)));
       let deleted_rows := rowcount cursor in
       on_world (commit conn);;
       on_world (close conn);;
       if decide (0 < deleted_rows) then mret true else mret false)
      (λ _, mret false).

Definition search_by_title (title_query : string) : M world (list t) :=
  try_except
    (conn ← get_connection;
     cursor ← execute conn (SelectILike ("%" +:+ title_query +:+ "%"));
     let results := fetchall cursor in
     close conn;;
     mret (from_dict <$> results))
    (λ _, mret []).

End Article.

(** ** [src/app/app.py] *)

(** The JSON body of [GET /health]: the three keys of the normal answer, or
    the error of the [except] branch. *)
Inductive health_body :=
  | Health (status database : string) (table_exists : bool)
  | Unhealthy (error : exn).

(** [health_check]: the dictionary is built key by key, so
    [test_connection] runs first and [Article.table_exists] after it; the
    answer is the body and the HTTP status (200 unless stated). *)
Definition health_check : M world (health_body * Z) :=
  try_except
    (db_healthy ← test_connection;
     exists_ ← Article.table_exists;
     mret (Health (if (db_healthy : bool) then "healthy" else "unhealthy")
                  (if (db_healthy : bool) then "connected" else "disconnected")
                  exists_, 200))
    (λ e, mret (Unhealthy e, 500)).

(** The [__main__] block up to [app.run]: create the table when the
    connection test passes and the existence check says no. *)
Definition startup : M world () :=
  connected ← test_connection;
  if (connected : bool) then
    exists_ ← Article.table_exists;
    if negb exists_ then Article.create_table;; mret ()
    else mret ()
  else mret ().

(** * Vocabulary of the properties *)

(** The next connection attempt succeeds. *)
Definition online (w : world) : Prop := head (net w) ≠ Some false.

Global Instance online_dec w : Decision (online w).
Proof. unfold online. apply _. Defined.

(** The world once a connection has been opened, resp. refused. *)
Definition opened (w : world) : world :=
  World (committed w) (articles_id_seq w) (clock w) (tail (net w))
        (<[next_conn w := None]> (conns w)) (S (next_conn w)).

Definition refused (w : world) : world :=
  World (committed w) (articles_id_seq w) (clock w) (tail (net w))
        (conns w) (next_conn w).

(** The world after a call that opened a connection, left the table [db]
    and the sequence [sq] behind, and closed the connection. *)
Definition finished (w : world) (db : option table) (sq : Z) : world :=
  World db sq (clock w) (tail (net w)) (delete (next_conn w) (conns w))
        (S (next_conn w)).

(** The world after a call whose statement raised: the table is as it was,
    and the connection stays in [conns], its transaction failed. *)
Definition abandoned (w : world) (sq : Z) : world :=
  World (committed w) sq (clock w) (tail (net w))
        (<[next_conn w := Some (Txn (committed w) (clock w) true)]> (conns w))
        (S (next_conn w)).

(** What persists of the server between calls. *)
Definition store (w : world) : option table * Z * Z :=
  (committed w, articles_id_seq w, clock w).

(** A statement that only reads leaves table and sequence as they were. *)
Definition reads (q : stmt) : bool :=
  match q with
  | SelectOne | SelectTableName | SelectColumns | SelectAll | SelectById _
  | SelectByLink _ | SelectILike _ => true
  | _ => false
  end.

(** The value a text parameter takes in a [VARCHAR(n)] column: [None] when
    it does not fit, [Some None] for NULL. *)
Definition fit (n : nat) (v : option string) : option (option string) :=
  match v with
  | None => Some None
  | Some s => Some <$> varchar n s
  end.

(** No row other than [i] holds the link [l] (NULL is always free). *)
Definition link_free (m : gmap Z row) (i : Z) (l : option string) : Prop :=
  ∀ s, l = Some s → link_taken m i s = false.

Inductive insert_outcome (a : Article.t) (w : world) :
    res (option Z) * (Article.t * world) → Prop :=
  | insert_refused :
      ¬ online w →
      insert_outcome a w (Ok None, (a, refused w))
  | insert_no_table :
      online w → committed w = None →
      insert_outcome a w (Ok None, (a, abandoned w (articles_id_seq w)))
  | insert_raised t sq e :
      online w → committed w = Some t →
      run_insert (clock w) (articles_id_seq w) t (Article.title a)
        (Article.raw_content a) (Article.direct_link a) = (sq, inl e) →
      insert_outcome a w (Ok None, (a, abandoned w sq))
  | insert_stored t ti' dl' :
      online w → committed w = Some t →
      fit 500 (Article.title a) = Some (Some ti') →
      fit 1000 (Article.direct_link a) = Some dl' →
      articles_id_seq w ≤ serial_max →
      rows t !! articles_id_seq w = None →
      link_free (rows t) (articles_id_seq w) dl' →
      insert_outcome a w
        (Ok (Some (articles_id_seq w)),
         (Article.Make (Some (articles_id_seq w)) (Article.title a)
            (Article.raw_content a) (Article.direct_link a)
            (Some (clock w)) (Some (clock w)),
          finished w
            (Some (Table (<[articles_id_seq w :=
                             Row ti' (Article.raw_content a) dl' (clock w) (clock w)]>
                            (rows t)) (indexes t)))
            (articles_id_seq w + 1))).

Inductive update_outcome (a : Article.t) (w : world) :
    res (option Z) * (Article.t * world) → Prop :=
  | update_refused :
      ¬ online w →
      update_outcome a w (Ok None, (a, refused w))
  | update_raised :
      online w →
      update_outcome a w (Ok None, (a, abandoned w (articles_id_seq w)))
  | update_not_found :
      online w →
      (∀ t i, committed w = Some t → Article.id a = Some i → rows t !! i = None) →
      update_outcome a w
        (Ok None, (a, finished w (committed w) (articles_id_seq w)))
  | update_stored t i old ti' dl' :
      online w → committed w = Some t → Article.id a = Some i →
      rows t !! i = Some old →
      fit 500 (Article.title a) = Some (Some ti') →
      fit 1000 (Article.direct_link a) = Some dl' →
      link_free (rows t) i dl' →
      update_outcome a w
        (Ok (Some i),
         (Article.Make (Some i) (Article.title a) (Article.raw_content a)
            (Article.direct_link a) (Article.created_at a) (Some (clock w)),
          finished w
            (Some (Table (<[i := Row ti' (Article.raw_content a) dl'
                                   (col_created_at old) (clock w)]> (rows t))
                         (indexes t)))
            (articles_id_seq w))).

Inductive delete_outcome (a : Article.t) (w : world) :
    res bool * (Article.t * world) → Prop :=
  | delete_unsaved :
      truthy (Article.id a) = false →
      delete_outcome a w (Ok false, (a, w))
  | delete_refused :
      truthy (Article.id a) = true → ¬ online w →
      delete_outcome a w (Ok false, (a, refused w))
  | delete_no_table :
      truthy (Article.id a) = true → online w → committed w = None →
      delete_outcome a w (Ok false, (a, abandoned w (articles_id_seq w)))
  | delete_not_found t i :
      truthy (Article.id a) = true → online w → committed w = Some t →
      Article.id a = Some i → rows t !! i = None →
      delete_outcome a w
        (Ok false, (a, finished w (committed w) (articles_id_seq w)))
  | delete_removed t i old :
      truthy (Article.id a) = true → online w → committed w = Some t →
      Article.id a = Some i → rows t !! i = Some old →
      delete_outcome a w
        (Ok true,
         (a, finished w (Some (Table (delete i (rows t)) (indexes t)))
               (articles_id_seq w))).

(** What the API and the environment can do to the world: a call of a
    method, the server clock moving on (never back), the network changing. *)
Inductive call :=
  | TestConnection
  | TableExists
  | CreateTableCall
  | GetTableStructure
  | Save (a : Article.t)
  | GetAll
  | GetById (i : Z)
  | GetByLink (l : option string)
  | Delete (a : Article.t)
  | SearchByTitle (q : string).

Definition after (c : call) (w : world) : world :=
  match c with
  | TestConnection => (test_connection w).2
  | TableExists => (Article.table_exists w).2
  | CreateTableCall => (Article.create_table w).2
  | GetTableStructure => (Article.get_table_structure w).2
  | Save a => (Article.save (a, w)).2.2
  | GetAll => (Article.get_all w).2
  | GetById i => (Article.get_by_id i w).2
  | GetByLink l => (Article.get_by_link l w).2
  | Delete a => (Article.delete (a, w)).2.2
  | SearchByTitle q => (Article.search_by_title q w).2
  end.

Definition advance (d : Z) (w : world) : world :=
  World (committed w) (articles_id_seq w) (clock w + d) (net w) (conns w)
        (next_conn w).

Definition with_net (l : list bool) (w : world) : world :=
  World (committed w) (articles_id_seq w) (clock w) l (conns w) (next_conn w).

Inductive step : world → world → Prop :=
  | step_call c w : step w (after c w)
  | step_time d w : 0 ≤ d → step w (advance d w)
  | step_net l w : step w (with_net l w).

(** The table holds what the sequence and the clock have handed out: ids
    between 1 and the sequence, and timestamps in order and not in the
    future. *)
Definition row_ok (sq now : Z) (i : Z) (r : row) : Prop :=
  1 ≤ i < sq ∧ col_created_at r ≤ col_updated_at r ≤ now.

Definition world_ok (w : world) : Prop :=
  ∀ t, committed w = Some t →
    1 ≤ articles_id_seq w ∧
    ∀ i r, rows t !! i = Some r → row_ok (articles_id_seq w) (clock w) i r.

(** A server without the table, the clock at 100. *)
Definition bare : world := World None 1 100 [] ∅ 0%nat.

(** The same after [create_table()]. *)
Definition empty_db : world := after CreateTableCall bare.

Definition draft (title direct_link : string) : Article.t :=
  Article.__init__ None (Some title) None (Some direct_link) None None.

(** One article saved, then one hour gone. *)
Definition one_article : world :=
  advance 3600 (after (Save (draft "Quarterly Report" "http://a/1")) empty_db).

Definition zero_id : Article.t :=
  Article.Make (Some 0) (Some "Reporting standards") (Some EmptyString) (Some "http://a/2")
    None None.

(** The table [CREATE TABLE] and [CREATE INDEX] leave behind. *)
Definition fresh_table : table :=
  Table ∅ ["idx_articles_title"; "idx_articles_direct_link"].


Definition row_count (db : option table) : nat :=
  from_option (λ t, size (rows t)) 0%nat db.

(** An Article never saved. *)
Definition unsaved : Article.t := Article.__init__ None None None None None None.

(** The article of [one_article], as [get_by_id 1] returns it. *)
Definition saved : Article.t :=
  Article.Make (Some 1) (Some "Quarterly Report") (Some EmptyString) (Some "http://a/1")
    (Some 100) (Some 100).

(** A row holds the empty link. *)
Definition holds_empty_link (w : world) : Prop :=
  ∃ t j r, committed w = Some t ∧ rows t !! j = Some r ∧
    col_direct_link r = Some EmptyString.

(** A query without pattern metacharacters. *)
Fixpoint plain (q : string) : bool :=
  match q with
  | EmptyString => true
  | String c q' =>
      bool_decide (c ≠ "%"%char ∧ c ≠ "_"%char ∧ c ≠ backslash) && plain q'
  end.

(** The pattern that matches [q] literally. *)
Fixpoint literal (q : string) : list like_tok :=
  match q with
  | EmptyString => []
  | String c q' => LChar c :: literal q'
  end.

(** Equal up to the case of letters. *)
Fixpoint ieq_string (q m : string) : bool :=
  match q, m with
  | EmptyString, EmptyString => true
  | String c q', String d m' => ieq c d && ieq_string q' m'
  | _, _ => false
  end.

(** [s] contains [q] as a substring, up to the case of letters. *)
Definition icontains (q s : string) : Prop :=
  ∃ pre m post, s = pre +:+ m +:+ post ∧ ieq_string q m = true.

(** The rows [search_by_title] and [get_all] answer with. *)
Definition articles_of (l : list (Z * row)) : list Article.t :=
  Article.from_dict <$> as_article_rows l.

(** The calls that only read. *)
Definition reading (c : call) : bool :=
  match c with
  | TestConnection | TableExists | GetTableStructure | GetAll | GetById _
  | GetByLink _ | SearchByTitle _ => true
  | _ => false
  end.

(** The world after a run of calls, the first of the list first. *)
Definition after_all (cs : list call) (w : world) : world :=
  foldl (λ w c, after c w) w cs.

(** What a call answers, with the world left out. *)
Inductive answer :=
  | ABool (b : bool)
  | AId (o : option Z)
  | AArticle (o : option Article.t)
  | AArticles (l : list Article.t)
  | AColumns (l : list drow).

Definition answer_of (c : call) (w : world) : res answer :=
  match c with
  | TestConnection =>
      match (test_connection w).1 with Ok b => Ok (ABool b) | Raise e => Raise e end
  | TableExists =>
      match (Article.table_exists w).1 with Ok b => Ok (ABool b) | Raise e => Raise e end
  | CreateTableCall =>
      match (Article.create_table w).1 with Ok b => Ok (ABool b) | Raise e => Raise e end
  | GetTableStructure =>
      match (Article.get_table_structure w).1 with
      | Ok l => Ok (AColumns l) | Raise e => Raise e end
  | Save a =>
      match (Article.save (a, w)).1 with Ok o => Ok (AId o) | Raise e => Raise e end
  | GetAll =>
      match (Article.get_all w).1 with Ok l => Ok (AArticles l) | Raise e => Raise e end
  | GetById i =>
      match (Article.get_by_id i w).1 with
      | Ok o => Ok (AArticle o) | Raise e => Raise e end
  | GetByLink l =>
      match (Article.get_by_link l w).1 with
      | Ok o => Ok (AArticle o) | Raise e => Raise e end
  | Delete a =>
      match (Article.delete (a, w)).1 with Ok b => Ok (ABool b) | Raise e => Raise e end
  | SearchByTitle q =>
      match (Article.search_by_title q w).1 with
      | Ok l => Ok (AArticles l) | Raise e => Raise e end
  end.

(** The constraints of the schema on what the table holds: no two rows with
    the same non-NULL [direct_link], titles of at most 500 characters and
    links of at most 1000. *)
Definition links_unique (t : table) : Prop :=
  ∀ i j r r' l, rows t !! i = Some r → rows t !! j = Some r' →
    col_direct_link r = Some l → col_direct_link r' = Some l → i = j.

Definition widths_ok (t : table) : Prop :=
  ∀ i r, rows t !! i = Some r →
    (String.length (col_title r) ≤ 500)%nat ∧
    ∀ l, col_direct_link r = Some l → (String.length l ≤ 1000)%nat.

Definition schema_ok (w : world) : Prop :=
  ∀ t, committed w = Some t → links_unique t ∧ widths_ok t.

(** The article a row is read back as. *)
Definition article_of (i : Z) (r : row) : Article.t :=
  Article.from_dict (ArticleRow i r).

(** A server on which the table holds two articles, the second an hour
    younger than the first. *)
Definition two_articles : world :=
  after (Save (draft "report card" "http://a/2")) one_article.

(** [two_articles] behind a network that lets the first connection
    through, drops the second and lets the third through. *)
Definition flaky : world := with_net [true; false; true] two_articles.

(** The steps that leave [create_table] out. *)
Inductive step_keeping : world → world → Prop :=
  | keeping_call c w : c ≠ CreateTableCall → step_keeping w (after c w)
  | keeping_time d w : 0 ≤ d → step_keeping w (advance d w)
  | keeping_net l w : step_keeping w (with_net l w).

(** * Properties *)

(** ** Running the primitives *)

Lemma connect_online w :
  online w → connect w = (Ok (next_conn w), opened w).
Proof.
  unfold online, connect, opened.
  destruct (net w) as [|[] ?]; simpl; congruence.
Qed.

Lemma connect_offline w :
  ¬ online w → connect w = (Raise OperationalError, refused w).
Proof.
  unfold online, connect, refused.
  destruct (net w) as [|[] ?]; simpl; intros H; try done.
  all: exfalso; apply H; congruence.
Qed.

Lemma get_connection_connect w : get_connection w = connect w.
Proof. unfold get_connection, try_except, raise. by destruct (connect w) as [[]]. Qed.

(** The first statement on a connection just opened. *)
Lemma execute_opened q w :
  execute (next_conn w) q (opened w) =
    match run_stmt q (clock w) (articles_id_seq w) (committed w) with
    | (sq, inl e) => (Raise e, abandoned w sq)
    | (sq, inr (db, r)) =>
        (Ok r,
         World (committed w) sq (clock w) (tail (net w))
               (<[next_conn w := Some (Txn db (clock w) false)]> (conns w))
               (S (next_conn w)))
    end.
Proof.
  unfold execute, opened, abandoned. simpl. rewrite lookup_insert_eq. simpl.
  destruct (run_stmt _ _ _ _) as [sq [e|[db r]]]; by rewrite insert_insert_eq.
Qed.

(** Unfold the Python layer down to [connect] and [execute]. *)
Ltac py_unfold :=
  unfold Article.table_exists, Article.create_table,
    Article.get_table_structure, Article._insert, Article._update,
    Article.save, Article.get_all, Article.get_by_id, Article.get_by_link,
    Article.delete, Article.search_by_title, test_connection,
    Article.self, Article.set_id, Article.set_created_at,
    Article.set_updated_at, item_id, item_created_at, item_updated_at,
    close, modify, try_except, on_world, fetchone, fetchall,
    mbind, M_bind, bind, mret, M_ret, ret, raise;
  rewrite ?get_connection_connect.

Lemma run_stmt_reads q now sq db :
  reads q = true →
  (run_stmt q now sq db).1 = sq ∧
  ∀ db' r, (run_stmt q now sq db).2 = inr (db', r) → db' = db.
Proof.
  destruct q; try discriminate; intros _; destruct db as [t|]; simpl;
    repeat case_match; simpl; split; try done; intros ?? [= <- _]; done.
Qed.

(** ** The write statements, case by case *)

Lemma run_insert_inr now sq t ti rc dl sq' db r :
  run_insert now sq t ti rc dl = (sq', inr (db, r)) →
  ∃ ti' dl',
    fit 500 ti = Some (Some ti') ∧ fit 1000 dl = Some dl' ∧
    sq ≤ serial_max ∧ rows t !! sq = None ∧ link_free (rows t) sq dl' ∧
    sq' = sq + 1 ∧
    db = Some (Table (<[sq := Row ti' rc dl' now now]> (rows t)) (indexes t)) ∧
    r = Result [InsertedRow sq now now] 1.
Proof.
  unfold run_insert, fit, link_free.
  destruct ti as [ti|], dl as [dl|]; simpl;
    try destruct (varchar 500 ti) as [ti'|]; simpl;
    try destruct (varchar 1000 dl) as [dl'|]; simpl;
    repeat case_decide; try discriminate;
    try (destruct (link_taken _ _ _) eqn:Hl; try discriminate);
    intros [= <- <- <-]; eexists _, _; split_and!; try done; try lia.
  - by apply eq_None_not_Some.
  - by intros ? [= <-].
  - by apply eq_None_not_Some.
Qed.


Lemma run_update_inr now sq t ti rc dl i sq' db r :
  run_update now sq t ti rc dl i = (sq', inr (db, r)) →
  sq' = sq ∧
  ((rows t !! i = None ∧ db = Some t ∧ r = Result [] 0) ∨
   (∃ old ti' dl',
      rows t !! i = Some old ∧
      fit 500 ti = Some (Some ti') ∧ fit 1000 dl = Some dl' ∧
      link_free (rows t) i dl' ∧
      db = Some (Table (<[i := Row ti' rc dl' (col_created_at old) now]> (rows t))
                       (indexes t)) ∧
      r = Result [UpdatedRow now] 1)).
Proof.
  unfold run_update, fit, link_free.
  destruct ti as [ti|], dl as [dl|]; simpl;
    try destruct (varchar 500 ti) as [ti'|]; simpl;
    try destruct (varchar 1000 dl) as [dl'|]; simpl;
    destruct (rows t !! i) as [old|] eqn:Hi; try discriminate;
    try (destruct (link_taken _ _ _) eqn:Hl; try discriminate);
    intros [= <- <- <-]; (split; [done|]); try (by left).
  - right. eexists _, _, _. split_and!; try done. by intros ? [= <-].
  - right. eexists _, _, _. split_and!; done.
Qed.

Lemma run_update_absent now sq t ti rc dl i :
  rows t !! i = None →
  run_update now sq t ti rc dl i = (sq, inl StringDataRightTruncation) ∨
  run_update now sq t ti rc dl i = (sq, inr (Some t, Result [] 0)).
Proof.
  unfold run_update. intros ->.
  destruct ti as [ti|], dl as [dl|]; simpl;
    try destruct (varchar 500 ti); simpl;
    try destruct (varchar 1000 dl); simpl; auto.
Qed.


(** A write statement never moves the sequence backwards. *)
Lemma run_insert_seq now sq t ti rc dl :
  (run_insert now sq t ti rc dl).1 = sq ∨ (run_insert now sq t ti rc dl).1 = sq + 1.
Proof.
  unfold run_insert.
  destruct ti as [ti|], dl as [dl|]; simpl;
    try destruct (varchar 500 ti); simpl;
    try destruct (varchar 1000 dl); simpl;
    repeat case_decide; simpl; auto;
    destruct (link_taken _ _ _); simpl; auto.
Qed.

Lemma run_update_seq now sq t ti rc dl i :
  (run_update now sq t ti rc dl i).1 = sq.
Proof.
  unfold run_update.
  destruct ti as [ti|], dl as [dl|]; simpl;
    try destruct (varchar 500 ti); simpl;
    try destruct (varchar 1000 dl); simpl;
    destruct (rows t !! i); simpl; auto;
    destruct (link_taken _ _ _); simpl; auto.
Qed.

(** ** The calls, case by case *)

(** Every reading method has one shape: connect, one statement, fetch,
    close, and a default in the [except] branch. *)
Lemma query_call {A} (q : stmt) (k : result → A) (dflt : A) (w : world) :
  try_except
    (conn ← get_connection;
     cursor ← execute conn q;
     let results := k cursor in
     close conn;;
     mret results)
    (λ _, mret dflt) w =
  if decide (online w) then
    match run_stmt q (clock w) (articles_id_seq w) (committed w) with
    | (sq, inl _) => (Ok dflt, abandoned w sq)
    | (sq, inr (_, r)) => (Ok (k r), finished w (committed w) sq)
    end
  else (Ok dflt, refused w).
Proof.
  py_unfold. case_decide as Hon.
  - rewrite connect_online by done. rewrite execute_opened.
    destruct (run_stmt _ _ _ _) as [sq [e|[db r]]]; [done|].
    unfold finished, set_conns. simpl. by rewrite delete_insert_eq.
  - by rewrite connect_offline.
Qed.

Lemma table_exists_call w :
  Article.table_exists w =
  if decide (online w)
  then (Ok (bool_decide (is_Some (committed w))),
        finished w (committed w) (articles_id_seq w))
  else (Ok false, refused w).
Proof.
  unfold Article.table_exists.
  rewrite (query_call SelectTableName
             (λ c, bool_decide (is_Some (fetchone c))) false).
  case_decide; [|done]. destruct (committed w); simpl; f_equal.
Qed.

Lemma search_by_title_call q w :
  Article.search_by_title q w =
  if decide (online w) then
    match committed w, like_tokens ("%" +:+ q +:+ "%") with
    | Some t, Some toks =>
        (Ok (Article.from_dict <$>
               as_article_rows
                 (order_by_created_desc
                    (filter (λ p, like_match toks (col_title p.2) = true)
                       (map_to_list (rows t))))),
         finished w (committed w) (articles_id_seq w))
    | _, _ => (Ok [], abandoned w (articles_id_seq w))
    end
  else (Ok [], refused w).
Proof.
  unfold Article.search_by_title.
  rewrite (query_call (SelectILike ("%" +:+ q +:+ "%"))
             (λ c, Article.from_dict <$> fetchall c) []).
  case_decide; [|done]. destruct (committed w); simpl; [|done].
  by destruct (like_tokens _); simpl.
Qed.

Lemma get_all_call w :
  Article.get_all w =
  if decide (online w) then
    match committed w with
    | Some t =>
        (Ok (Article.from_dict <$>
               as_article_rows (order_by_created_desc (map_to_list (rows t)))),
         finished w (committed w) (articles_id_seq w))
    | None => (Ok [], abandoned w (articles_id_seq w))
    end
  else (Ok [], refused w).
Proof.
  unfold Article.get_all.
  rewrite (query_call SelectAll (λ c, Article.from_dict <$> fetchall c) []).
  case_decide; [|done]. by destruct (committed w).
Qed.

(** A reading method leaves table, sequence and clock as they were. *)
Lemma query_call_store {A} (q : stmt) (k : result → A) (dflt : A) (w : world) :
  reads q = true →
  store (try_except
           (conn ← get_connection;
            cursor ← execute conn q;
            let results := k cursor in
            close conn;;
            mret results)
           (λ _, mret dflt) w).2 = store w.
Proof.
  intros Hq. rewrite query_call. case_decide; [|done].
  destruct (run_stmt_reads q (clock w) (articles_id_seq w) (committed w) Hq)
    as [Hsq _].
  destruct (run_stmt _ _ _ _) as [sq [e|[db r]]]; simpl in *; by subst.
Qed.

Lemma _insert_outcome a w : insert_outcome a w (Article._insert (a, w)).
Proof.
  destruct (decide (online w)) as [Hon|Hoff]; py_unfold; simpl.
  2: { rewrite connect_offline by done. by constructor. }
  rewrite connect_online by done. rewrite execute_opened.
  destruct (committed w) as [t|] eqn:Hc; simpl.
  2: { by apply insert_no_table. }
  destruct (run_insert _ _ _ _ _ _) as [sq [e|[db r]]] eqn:Hrun.
  { by apply (insert_raised a w t sq e). }
  apply run_insert_inr in Hrun
    as (ti' & dl' & Hti & Hdl & Hsq & Hpk & Hfree & -> & -> & ->).
  simpl. unfold commit, set_conns. simpl. rewrite lookup_insert_eq. simpl.
  rewrite insert_insert_eq, delete_insert_eq.
  by apply (insert_stored a w t ti' dl').
Qed.

Lemma _update_outcome a w : update_outcome a w (Article._update (a, w)).
Proof.
  destruct (decide (online w)) as [Hon|Hoff]; py_unfold; simpl.
  2: { rewrite connect_offline by done. by constructor. }
  rewrite connect_online by done. rewrite execute_opened.
  destruct (committed w) as [t|] eqn:Hc; simpl.
  2: { destruct (Article.id a); simpl; by apply update_raised. }
  destruct (Article.id a) as [i|] eqn:Hid.
  - pose proof (run_update_seq (clock w) (articles_id_seq w) t (Article.title a)
                  (Article.raw_content a) (Article.direct_link a) i) as Hsq.
    destruct (run_update _ _ _ _ _ _ _) as [sq [e|[db r]]] eqn:Hrun;
      simpl in Hsq; subst sq.
    { by apply update_raised. }
    apply run_update_inr in Hrun as [_ [(Hi & -> & ->)|Hrun]].
    + simpl. unfold set_conns. simpl. rewrite delete_insert_eq.
      rewrite <- Hc. apply update_not_found; [done|].
      intros t' i' Ht' Hi'.
      assert (i' = i) as -> by congruence.
      assert (t' = t) as -> by congruence. done.
    + destruct Hrun as (old & ti' & dl' & Hi & Hti & Hdl & Hfree & -> & ->).
      simpl. unfold commit, set_conns. simpl. rewrite lookup_insert_eq. simpl.
      rewrite insert_insert_eq, delete_insert_eq.
      rewrite !Hid.
      by apply (update_stored a w t i old ti' dl').
  - destruct (varchar 500 <$> Article.title a) as [[?|]|];
      destruct (varchar 1000 <$> Article.direct_link a) as [[?|]|]; simpl;
      try (by apply update_raised).
    all: unfold set_conns; simpl; rewrite delete_insert_eq;
      rewrite <- Hc; apply update_not_found; [done|];
      intros ?? _ ?; congruence.
Qed.

Lemma delete_outcome_call a w : delete_outcome a w (Article.delete (a, w)).
Proof.
  unfold Article.delete. cbv beta delta [mbind M_bind bind Article.self].
  simpl. destruct (truthy (Article.id a)) eqn:Hid; simpl.
  2: { by apply delete_unsaved. }
  destruct (decide (online w)) as [Hon|Hoff]; py_unfold; simpl.
  2: { rewrite connect_offline by done. by apply delete_refused. }
  rewrite connect_online by done. rewrite execute_opened.
  destruct (Article.id a) as [i|] eqn:Hi; [|done].
  assert (truthy (Article.id a) = true) as Htr by (by rewrite Hi).
  destruct (committed w) as [t|] eqn:Hc; simpl.
  2: { by apply delete_no_table. }
  destruct (rows t !! i) as [old|] eqn:Hrow; simpl;
    unfold commit, set_conns; simpl; rewrite lookup_insert_eq; simpl;
    rewrite insert_insert_eq, delete_insert_eq.
  - by apply (delete_removed a w t i old).
  - rewrite <- Hc. by apply (delete_not_found a w t i).
Qed.

Lemma save_dispatch a w :
  Article.save (a, w) =
  if truthy (Article.id a) then Article._update (a, w) else Article._insert (a, w).
Proof.
  unfold Article.save. cbv beta delta [mbind M_bind bind Article.self]. simpl.
  by destruct (truthy (Article.id a)).
Qed.

(** ** Worlds the code can be in *)

Lemma world_ok_no_table w : committed w = None → world_ok w.
Proof. intros H t Ht. congruence. Qed.

Lemma world_ok_store w w' : store w' = store w → world_ok w → world_ok w'.
Proof.
  unfold store, world_ok. intros [= Hc Hs Hk] H t Ht.
  rewrite Hs, Hk. apply (H t); congruence.
Qed.

Lemma world_ok_weaken w w' :
  committed w' = committed w →
  articles_id_seq w ≤ articles_id_seq w' → clock w ≤ clock w' →
  world_ok w → world_ok w'.
Proof.
  unfold world_ok, row_ok. intros Hc Hs Hk H t Ht.
  rewrite Hc in Ht. destruct (H t Ht) as [Hseq1 Hr]. split; [lia|].
  intros i r Hi. specialize (Hr i r Hi). lia.
Qed.

Lemma insert_keeps_ok a w : world_ok w → world_ok (Article._insert (a, w)).2.2.
Proof.
  intros Hok. destruct (_insert_outcome a w) as [| |t sq e ? Ht Hrun|t ti' dl' ? Ht];
    simpl.
  - by apply (world_ok_store w).
  - by apply (world_ok_store w).
  - apply (world_ok_weaken w); simpl; try done.
    destruct (run_insert_seq (clock w) (articles_id_seq w) t (Article.title a)
                (Article.raw_content a) (Article.direct_link a)) as [Hs|Hs];
      rewrite Hrun in Hs; simpl in Hs; lia.
  - destruct (Hok t Ht) as [Hseq1 Hrows].
    intros t' [= <-]. simpl. split; [lia|]. intros i r.
    destruct (decide (i = articles_id_seq w)) as [->|Hne].
    + rewrite lookup_insert_eq. intros [= <-]. unfold row_ok. simpl. lia.
    + rewrite lookup_insert_ne by done. intros Hr.
      specialize (Hrows i r Hr). unfold row_ok in *. lia.
Qed.

Lemma update_keeps_ok a w : world_ok w → world_ok (Article._update (a, w)).2.2.
Proof.
  intros Hok.
  destruct (_update_outcome a w) as [| | |t i old ti' dl' ? Ht Hid Hold]; simpl.
  - by apply (world_ok_store w).
  - by apply (world_ok_store w).
  - by apply (world_ok_store w).
  - destruct (Hok t Ht) as [Hseq1 Hrows].
    intros t' [= <-]. simpl. split; [done|]. intros j r.
    destruct (decide (j = i)) as [->|Hne].
    + rewrite lookup_insert_eq. intros [= <-].
      specialize (Hrows i old Hold). unfold row_ok in *. simpl. lia.
    + rewrite lookup_insert_ne by done. apply Hrows.
Qed.

Lemma delete_keeps_ok a w : world_ok w → world_ok (Article.delete (a, w)).2.2.
Proof.
  intros Hok.
  destruct (delete_outcome_call a w) as [| | | |t i old ? ? Ht]; simpl;
    try (by apply (world_ok_store w)).
  destruct (Hok t Ht) as [Hseq1 Hrows].
  intros t' [= <-]. simpl. split; [done|]. intros j r Hj.
  apply lookup_delete_Some in Hj as [_ Hj]. by apply Hrows.
Qed.

Lemma create_table_call w :
  Article.create_table w =
  if decide (online w) then
    Article.table_exists
      (finished w
         (Some (Table ∅ ["idx_articles_title"; "idx_articles_direct_link"])) 1)
  else (Ok false, refused w).
Proof.
  case_decide as Hon.
  - unfold Article.create_table.
    cbv beta delta [try_except mbind M_bind bind mret M_ret ret].
    rewrite get_connection_connect, connect_online by done.
    rewrite execute_opened. simpl.
    unfold execute, commit, close, modify, set_conns. simpl.
    repeat (rewrite lookup_insert_eq; simpl).
    rewrite !insert_insert_eq, delete_insert_eq.
    unfold add_index. simpl.
    fold (finished w
            (Some (Table ∅ ["idx_articles_title"; "idx_articles_direct_link"])) 1).
    rewrite table_exists_call. by repeat case_match.
  - unfold Article.create_table.
    cbv beta delta [try_except mbind M_bind bind mret M_ret ret].
    by rewrite get_connection_connect, connect_offline.
Qed.

Lemma after_keeps_ok c w : world_ok w → world_ok (after c w).
Proof.
  intros Hok. destruct c as [| | | |a| | | |a|q]; simpl.
  - apply (world_ok_store w); [|done]. by apply query_call_store.
  - apply (world_ok_store w); [|done]. by apply query_call_store.
  - rewrite create_table_call. case_decide; [|by apply (world_ok_store w)].
    rewrite table_exists_call.
    case_decide; simpl; intros t [= <-]; simpl; (split; [done|]);
      intros i r Hi; by rewrite lookup_empty in Hi.
  - apply (world_ok_store w); [|done]. by apply query_call_store.
  - rewrite save_dispatch. destruct (truthy _).
    + by apply update_keeps_ok.
    + by apply insert_keeps_ok.
  - apply (world_ok_store w); [|done]. by apply query_call_store.
  - apply (world_ok_store w); [|done]. by apply query_call_store.
  - apply (world_ok_store w); [|done]. by apply query_call_store.
  - by apply delete_keeps_ok.
  - apply (world_ok_store w); [|done]. by apply query_call_store.
Qed.

Lemma step_keeps_ok w w' : step w w' → world_ok w → world_ok w'.
Proof.
  intros Hs Hok. destruct Hs as [c w|d w Hd|l w].
  - by apply after_keeps_ok.
  - apply (world_ok_weaken w); simpl; [done|lia|lia|done].
  - by apply (world_ok_store w).
Qed.


(** ** Sample worlds *)

Lemma bare_ok : world_ok bare.
Proof. by apply world_ok_no_table. Qed.

Lemma empty_db_ok : world_ok empty_db.
Proof. apply after_keeps_ok, bare_ok. Qed.

Lemma one_article_ok : world_ok one_article.
Proof.
  apply (step_keeps_ok _ _ (step_time 3600 _ ltac:(lia))).
  apply after_keeps_ok, empty_db_ok.
Qed.



(** What a successful insert leaves behind. *)
Lemma insert_returns a w i a' w' :
  truthy (Article.id a) = false →
  Article.save (a, w) = (Ok (Some i), (a', w')) →
  ∃ t r,
    i = articles_id_seq w ∧ committed w = Some t ∧ rows t !! i = None ∧
    committed w' = Some (Table (<[i := r]> (rows t)) (indexes t)) ∧
    col_created_at r = clock w ∧ col_updated_at r = clock w ∧
    fit 500 (Article.title a) = Some (Some (col_title r)) ∧
    col_raw_content r = Article.raw_content a ∧
    fit 1000 (Article.direct_link a) = Some (col_direct_link r) ∧
    a' = Article.Make (Some i) (Article.title a) (Article.raw_content a)
           (Article.direct_link a) (Some (col_created_at r))
           (Some (col_updated_at r)).
Proof.
  intros Hid. rewrite save_dispatch, Hid.
  destruct (_insert_outcome a w) as [| | |t ti' dl']; try discriminate.
  intros [= <- <- <-]. eexists t, _. split_and!; try done.
Qed.



(** [save] never raises. *)
Lemma save_total a w : ∃ o s, Article.save (a, w) = (Ok o, s).
Proof.
  rewrite save_dispatch. destruct (truthy _).
  - destruct (_update_outcome a w); eauto.
  - destruct (_insert_outcome a w); eauto.
Qed.

(** An update whose id is in no row returns [None]. *)
Lemma update_absent a w :
  truthy (Article.id a) = true →
  (∀ t i, committed w = Some t → Article.id a = Some i → rows t !! i = None) →
  ∃ w', Article.save (a, w) = (Ok None, (a, w')) ∧ committed w' = committed w.
Proof.
  intros Hid Habs. rewrite save_dispatch, Hid.
  destruct (_update_outcome a w) as [| | |t i old ti' dl' ? Ht Hi Hold];
    try (by eexists).
  rewrite (Habs t i Ht Hi) in Hold. discriminate.
Qed.

(** ** C1: [save] *)




(** ** C2: [create_table] *)

Lemma get_table_structure_call w :
  Article.get_table_structure w =
  if decide (online w) then
    (Ok (from_option (λ _, ColumnRow <$> articles_columns) [] (committed w)),
     finished w (committed w) (articles_id_seq w))
  else (Ok [], refused w).
Proof.
  unfold Article.get_table_structure.
  rewrite (query_call SelectColumns fetchall []).
  case_decide; [|done]. by destruct (committed w).
Qed.



(** ** C3: the two timestamps *)





(** ** C4: the id an insert returns *)

(** C4: when [save] on an Article without an id ([None], or 0) succeeds, the
    id it returns is positive, it is the [id] of [self], and [created_at] and
    [updated_at] are one and the same timestamp, in [self] and in the row. *)
Theorem insert_returns_positive_id (a : Article.t) (w : world) i a' w' :
  world_ok w →
  truthy (Article.id a) = false →
  Article.save (a, w) = (Ok (Some i), (a', w')) →
  0 < i ∧ Article.id a' = Some i ∧
  is_Some (Article.created_at a') ∧
  Article.created_at a' = Article.updated_at a' ∧
  ∃ t r, committed w' = Some t ∧ rows t !! i = Some r ∧
    col_created_at r = col_updated_at r ∧
    Article.created_at a' = Some (col_created_at r).
Proof.
  intros Hok Hid Hsave.
  destruct (insert_returns a w i a' w' Hid Hsave)
    as (t & r & -> & Ht & Hfree & Ht' & Hc & Hu & _ & _ & _ & ->).
  destruct (Hok t Ht) as [Hseq _]. simpl.
  split_and!; try done; [lia|by rewrite Hc, Hu|].
  eexists _, r. split_and!; try done; [|lia].
  simpl. by rewrite lookup_insert_eq.
Qed.

Lemma insert_returns_positive_id_witness :
  world_ok empty_db ∧
  (Article.save (draft "Quarterly Report" "http://a/1", empty_db)).1 = Ok (Some 1) ∧
  0 < 1 ∧
  Article.created_at
    (Article.save (draft "Quarterly Report" "http://a/1", empty_db)).2.1 =
  Article.updated_at
    (Article.save (draft "Quarterly Report" "http://a/1", empty_db)).2.1.
Proof.
  pose (a := draft "Quarterly Report" "http://a/1").
  destruct (insert_returns_positive_id a empty_db 1
              (Article.save (a, empty_db)).2.1 (Article.save (a, empty_db)).2.2
              empty_db_ok eq_refl)
    as (Hpos & _ & _ & Heq & _); [by vm_compute|].
  split_and!; [exact empty_db_ok|by vm_compute|exact Hpos|exact Heq].
Defined.

(** ** C6: [delete] *)

(** C6: with [id] [None], [delete] returns [False] and the world is the one
    it was called in: no connection, no statement.  In every case [delete]
    returns a boolean, leaves [self] alone, and the boolean is [True] exactly
    when the table has one row less than before; [True] means the row of
    [self.id] is the one that went, [False] that the table is as it was.
    With an [id], a connection and the table, the row of that id is removed.
    After a [delete] that returned [True], another [delete] returns [False]. *)
Theorem delete_removes_one_row (a : Article.t) (w : world) :
  world_ok w →
  (Article.id a = None → Article.delete (a, w) = (Ok false, (a, w))) ∧
  (∃ b w',
     Article.delete (a, w) = (Ok b, (a, w')) ∧
     b = bool_decide (row_count (committed w) = S (row_count (committed w'))) ∧
     (b = true →
      ∃ t i old, Article.id a = Some i ∧ committed w = Some t ∧
        rows t !! i = Some old ∧
        committed w' = Some (Table (delete i (rows t)) (indexes t))) ∧
     (b = false → committed w' = committed w) ∧
     (b = true → (Article.delete (a, w')).1 = Ok false)) ∧
  (∀ i t, Article.id a = Some i → online w → committed w = Some t →
     (Article.delete (a, w)).1 = Ok (bool_decide (is_Some (rows t !! i))) ∧
     committed (Article.delete (a, w)).2.2 =
       Some (Table (delete i (rows t)) (indexes t))).
Proof.
  intros Hok. split_and!.
  - intros Hid.
    destruct (delete_outcome_call a w) as [| | | |]; try done;
      by rewrite Hid in *.
  - destruct (delete_outcome_call a w) as [| | |t i ? ? Ht Hi Hrow|t i old ? ? Ht Hi Hrow].
    1-4: eexists false, _; split; [done|]; simpl;
      split_and!; try done; symmetry; apply bool_decide_eq_false_2; lia.
    eexists true, _. split; [done|]. simpl. rewrite Ht. simpl.
    split_and!; try done.
    + symmetry. apply bool_decide_eq_true_2.
      rewrite map_size_delete, Hrow.
      assert (size (rows t) ≠ 0%nat); [|lia].
      intros Hz. apply map_size_empty_inv in Hz. rewrite Hz in Hrow.
      by rewrite lookup_empty in Hrow.
    + by exists t, i, old.
    + intros _.
      destruct (delete_outcome_call a
                  (finished w (Some (Table (delete i (rows t)) (indexes t)))
                     (articles_id_seq w)))
        as [| | | |t' j old' ? ? Ht' Hj Hrow']; try done.
      simpl in Ht'. injection Ht' as <-. simpl in Hrow'.
      assert (j = i) as -> by congruence.
      by rewrite lookup_delete_eq in Hrow'.
  - intros i t Hi Hon Ht.
    destruct (delete_outcome_call a w)
      as [Hf| | |t' j ? ? Ht' Hj Hrow|t' j old ? ? Ht' Hj Hrow]; try done;
      try congruence.
    + rewrite Hi in Hf. simpl in Hf.
      apply bool_decide_eq_false in Hf.
      assert (i = 0) as -> by (destruct (decide (i = 0)); [done|by destruct Hf]).
      assert (rows t !! 0 = None) as Hnone.
      { destruct (rows t !! 0) as [r|] eqn:Hr; [|done].
        destruct (Hok t Ht) as [_ Hrows]. destruct (Hrows 0 r Hr). lia. }
      simpl. rewrite Hnone, Ht. split; [done|].
      rewrite delete_id by done. by destruct t.
    + assert (t' = t) as -> by congruence.
      assert (j = i) as -> by congruence.
      simpl. rewrite Hrow, Ht. split; [done|].
      rewrite delete_id by done. by destruct t.
    + assert (t' = t) as -> by congruence.
      assert (j = i) as -> by congruence.
      simpl. by rewrite Hrow.
Qed.

Lemma delete_removes_one_row_witness :
  world_ok one_article ∧
  Article.delete (unsaved, one_article) = (Ok false, (unsaved, one_article)) ∧
  (Article.delete (saved, one_article)).1 = Ok true ∧
  (rows <$> committed (Article.delete (saved, one_article)).2.2) = Some ∅ ∧
  (Article.delete (saved, (Article.delete (saved, one_article)).2.2)).1 = Ok false.
Proof.
  destruct (delete_removes_one_row unsaved one_article one_article_ok)
    as (Hnone & _).
  destruct (delete_removes_one_row saved one_article one_article_ok)
    as (_ & (b & w' & Hdel & _ & _ & _ & Hagain) & Hrm).
  destruct (Hrm 1
              (Table {[ 1 := Row "Quarterly Report" (Some EmptyString) (Some "http://a/1")
                                 100 100 ]}
                     ["idx_articles_title"; "idx_articles_direct_link"])
              eq_refl) as [Hb Hc]; [by vm_compute|by vm_compute|].
  split_and!.
  - exact one_article_ok.
  - apply Hnone. reflexivity.
  - rewrite Hb. by vm_compute.
  - rewrite Hc. by vm_compute.
  - rewrite Hdel in Hb. simpl in Hb. rewrite Hdel. simpl.
    apply Hagain. injection Hb as ->. by vm_compute.
Defined.

(** ** C8: an [id] of 0 *)

(** C8: [save] and [delete] test [self.id] for truthiness.  On an Article
    whose [id] is 0, [save] is [_insert]: when it succeeds the id it returns
    is the next value of the sequence, no row had it, the table gains that
    row and keeps every other; and [delete] returns [False] in the world it
    was called in, without a connection or a statement. *)
Theorem id_zero_is_unsaved (a : Article.t) (w : world) :
  Article.id a = Some 0 →
  Article.save (a, w) = Article._insert (a, w) ∧
  Article.delete (a, w) = (Ok false, (a, w)) ∧
  (∀ i a' w', Article.save (a, w) = (Ok (Some i), (a', w')) →
     i = articles_id_seq w ∧ Article.id a' = Some i ∧
     ∃ t r, committed w = Some t ∧ rows t !! i = None ∧
       committed w' = Some (Table (<[i := r]> (rows t)) (indexes t))).
Proof.
  intros Hid.
  assert (truthy (Article.id a) = false) as Htr by (by rewrite Hid).
  split_and!.
  - by rewrite save_dispatch, Htr.
  - destruct (delete_outcome_call a w); try done; congruence.
  - intros i a' w' Hsave.
    destruct (insert_returns a w i a' w' Htr Hsave)
      as (t & r & -> & Ht & Hfree & Ht' & _ & _ & _ & _ & _ & ->).
    split_and!; try done. by exists t, r.
Qed.

Lemma id_zero_is_unsaved_witness :
  Article.id zero_id = Some 0 ∧
  Article.save (zero_id, one_article) = Article._insert (zero_id, one_article) ∧
  Article.delete (zero_id, one_article) = (Ok false, (zero_id, one_article)) ∧
  (Article.save (zero_id, one_article)).1 = Ok (Some 2).
Proof.
  destruct (id_zero_is_unsaved zero_id one_article eq_refl) as (Hs & Hd & _).
  split_and!; [reflexivity|exact Hs|exact Hd|by vm_compute].
Defined.

(** ** C9: the default [direct_link] *)

Lemma link_taken_true m i j r l :
  m !! j = Some r → j ≠ i → col_direct_link r = Some l →
  link_taken m i l = true.
Proof.
  intros Hj Hne Hl. unfold link_taken. apply bool_decide_eq_true_2.
  exists j, r. done.
Qed.

Lemma varchar_empty n : varchar n EmptyString = Some EmptyString.
Proof. unfold varchar. rewrite decide_True; [done|simpl; lia]. Qed.

(** An insert with the empty link into a table that holds it stores
    nothing. *)
Lemma insert_empty_link_refused a w :
  truthy (Article.id a) = false → Article.direct_link a = Some EmptyString →
  holds_empty_link w →
  ∃ w', Article.save (a, w) = (Ok None, (a, w')) ∧ committed w' = committed w.
Proof.
  intros Hid Hlink (t & j & r & Ht & Hj & Hr).
  rewrite save_dispatch, Hid.
  destruct (_insert_outcome a w)
    as [| | |t0 ti' dl' ? Ht0 Hti Hdl Hsq Hpk Hfree]; try (by eexists).
  assert (t0 = t) as -> by congruence.
  rewrite Hlink in Hdl. unfold fit in Hdl. rewrite varchar_empty in Hdl.
  injection Hdl as <-.
  assert (j ≠ articles_id_seq w) as Hne by congruence.
  specialize (Hfree EmptyString eq_refl).
  rewrite (link_taken_true _ _ j r EmptyString Hj Hne Hr) in Hfree. discriminate.
Qed.

(** C9: [Article(...)] without [direct_link] has the empty string there, not
    [None]; the row a successful [save] of it writes has the empty string in
    [direct_link], not NULL; and as long as a row holds the empty link, the
    [save] of another Article without [id] and without [direct_link] returns
    [None] and stores nothing.  So of two such Articles saved one after the
    other, the second is refused. *)
Theorem empty_link_is_unique (ti1 rc1 ti2 rc2 : option string)
    (c1 u1 c2 u2 : option Z) (w : world) i a1' w1 :
  let a1 := Article.__init__ None ti1 rc1 None c1 u1 in
  let a2 := Article.__init__ None ti2 rc2 None c2 u2 in
  Article.save (a1, w) = (Ok (Some i), (a1', w1)) →
  Article.direct_link a1 = Some EmptyString ∧
  (∃ t r, committed w1 = Some t ∧ rows t !! i = Some r ∧
     col_direct_link r = Some EmptyString) ∧
  (∃ w2, Article.save (a2, w1) = (Ok None, (a2, w2)) ∧
     committed w2 = committed w1) ∧
  (∀ w', holds_empty_link w' →
     ∃ w2, Article.save (a2, w') = (Ok None, (a2, w2)) ∧
       committed w2 = committed w').
Proof.
  intros a1 a2 Hsave.
  destruct (insert_returns a1 w i a1' w1 eq_refl Hsave)
    as (t & r & -> & Ht & Hfree & Ht' & _ & _ & _ & _ & Hl & ->).
  assert (fit 1000 (Article.direct_link a1) = Some (Some EmptyString)) as Hfit
    by reflexivity.
  rewrite Hfit in Hl. injection Hl as Hl.
  assert (holds_empty_link w1) as Hholds.
  { eexists _, (articles_id_seq w), r. split_and!; try done.
    simpl. by rewrite lookup_insert_eq. }
  split_and!.
  - done.
  - eexists _, r. split_and!; try done. simpl. by rewrite lookup_insert_eq.
  - by apply insert_empty_link_refused.
  - intros w' Hw'. by apply insert_empty_link_refused.
Qed.

Lemma empty_link_is_unique_witness :
  (Article.save (Article.__init__ None (Some "first") None None None None,
                 empty_db)).1 = Ok (Some 1) ∧
  (Article.save (Article.__init__ None (Some "second") None None None None,
                 after (Save (Article.__init__ None (Some "first") None None None None))
                   empty_db)).1 = Ok None.
Proof.
  pose (a1 := Article.__init__ None (Some "first") None None None None).
  pose (a2 := Article.__init__ None (Some "second") None None None None).
  assert (Article.save (a1, empty_db) =
          (Ok (Some 1), ((Article.save (a1, empty_db)).2.1,
                         (Article.save (a1, empty_db)).2.2)))
    as Hsave by (by vm_compute).
  destruct (empty_link_is_unique (Some "first") None (Some "second") None
              None None None None empty_db 1 _ _ Hsave)
    as (_ & _ & (w2 & Hsecond & _) & _).
  split; [by vm_compute|].
  exact (f_equal fst Hsecond).
Defined.

(** ** C7: connections on the error path *)


(** On the other branches the connection is closed: a call that opened a
    connection and ended in [finished] leaves no entry for it. *)
Lemma finished_closes w db sq : conns (finished w db sq) !! next_conn w = None.
Proof. simpl. apply lookup_delete_eq. Qed.

Lemma abandoned_leaves_open w sq : is_Some (conns (abandoned w sq) !! next_conn w).
Proof. simpl. rewrite lookup_insert_eq. by eexists. Qed.

(** ** Matching *)

Lemma append_nil_l (s : string) : EmptyString +:+ s = s.
Proof. reflexivity. Qed.

Lemma append_cons c (s t : string) : String c s +:+ t = String c (s +:+ t).
Proof. reflexivity. Qed.

Lemma append_empty_r s : s +:+ EmptyString = s.
Proof.
  induction s as [|c s IH]; [done|]. by rewrite append_cons, IH.
Qed.

Lemma like_match_any_unfold p s :
  like_match (LAny :: p) s =
  like_match p s ||
  match s with
  | EmptyString => false
  | String _ s' => like_match (LAny :: p) s'
  end.
Proof. by destruct s. Qed.

Lemma like_match_any p s :
  like_match (LAny :: p) s = true ↔
  ∃ pre post, s = pre +:+ post ∧ like_match p post = true.
Proof.
  induction s as [|c s IH]; rewrite like_match_any_unfold.
  - rewrite orb_false_r. split.
    + intros H. by exists EmptyString, EmptyString.
    + intros (pre & post & Hs & H). destruct pre; [|done].
      rewrite append_nil_l in Hs. by subst.
  - rewrite orb_true_iff, IH. split.
    + intros [H|(pre & post & -> & H)].
      * by exists EmptyString, (String c s).
      * by exists (String c pre), post.
    + intros (pre & post & Hs & H). destruct pre as [|d pre].
      * rewrite append_nil_l in Hs. left. by subst.
      * rewrite append_cons in Hs. right. injection Hs as -> ->.
        by exists pre, post.
Qed.

Lemma like_match_literal q p s :
  like_match (literal q ++ p) s = true ↔
  ∃ m post, s = m +:+ post ∧ ieq_string q m = true ∧ like_match p post = true.
Proof.
  revert s. induction q as [|c q IH]; intros s; simpl.
  - split.
    + intros H. by exists EmptyString, s.
    + intros (m & post & -> & Hm & H). by destruct m.
  - destruct s as [|d s].
    + split; [done|]. intros (m & post & Hs & Hm & _). by destruct m.
    + rewrite andb_true_iff, IH. split.
      * intros (Hcd & m & post & -> & Hm & H).
        exists (String d m), post. simpl. by rewrite Hcd, Hm.
      * intros (m & post & Hs & Hm & H). destruct m as [|e m]; [done|].
        rewrite append_cons in Hs. injection Hs as -> ->.
        apply andb_true_iff in Hm as [Hcd Hm]. split; [done|].
        by exists m, post.
Qed.

Lemma like_match_only_any s : like_match [LAny] s = true.
Proof.
  apply like_match_any. exists s, EmptyString. by rewrite append_empty_r.
Qed.

(** The pattern [%q%], once [q] is read literally, matches the titles that
    contain [q]. *)
Lemma like_match_contains q s :
  like_match (LAny :: literal q ++ [LAny]) s = true ↔ icontains q s.
Proof.
  rewrite like_match_any. unfold icontains. split.
  - intros (pre & rest & -> & H).
    apply like_match_literal in H as (m & post & -> & Hm & _).
    by exists pre, m, post.
  - intros (pre & m & post & -> & Hm). exists pre, (m +:+ post).
    split; [done|]. apply like_match_literal.
    exists m, post. split_and!; try done. apply like_match_only_any.
Qed.

(** A plain query is read literally. *)
Lemma like_tokens_plain q rest :
  plain q = true →
  like_tokens (q +:+ rest) = (literal q ++.) <$> like_tokens rest.
Proof.
  induction q as [|c q IH].
  - intros _. rewrite append_nil_l. by destruct (like_tokens rest).
  - simpl. intros [Hc Hq]%andb_true_iff.
    apply bool_decide_eq_true in Hc as (H1 & H2 & H3).
    rewrite !decide_False by done. rewrite (IH Hq).
    by destruct (like_tokens rest).
Qed.

Lemma like_tokens_search_plain q :
  plain q = true →
  like_tokens ("%" +:+ q +:+ "%") = Some (LAny :: literal q ++ [LAny]).
Proof.
  intros Hq. rewrite append_cons, append_nil_l.
  simpl. by rewrite (like_tokens_plain q "%" Hq).
Qed.

Global Instance newer_total : Total newer.
Proof. intros x y. unfold newer. lia. Qed.

(** For a query without [%], [_] and backslash, [search_by_title] answers,
    when it can connect and the table is there, with the articles whose
    title contains the query up to case, newest first, and closes its
    connection. *)
Theorem search_by_title_plain (q : string) (w : world) (t : table) :
  plain q = true → online w → committed w = Some t →
  ∃ l,
    Article.search_by_title q w =
      (Ok (articles_of l), finished w (committed w) (articles_id_seq w)) ∧
    Sorted newer l ∧ NoDup l ∧
    ∀ i r, (i, r) ∈ l ↔ rows t !! i = Some r ∧ icontains q (col_title r).
Proof.
  intros Hq Hon Ht. rewrite search_by_title_call, decide_True by done.
  rewrite Ht, (like_tokens_search_plain q Hq).
  eexists. split; [reflexivity|]. split_and!.
  - apply (Sorted_merge_sort newer).
  - unfold order_by_created_desc. rewrite merge_sort_Permutation.
    apply NoDup_filter, NoDup_map_to_list.
  - intros i r. unfold order_by_created_desc. rewrite merge_sort_Permutation.
    rewrite list_elem_of_filter, elem_of_map_to_list.
    change (col_title (i, r).2) with (col_title r).
    rewrite like_match_contains. tauto.
Qed.

(** ** C5 and C10: [%] and [_] in the query *)

(** C5 fails on queries that hold a pattern character.  The table holds one
    article, titled "Quarterly Report".  The title contains neither "%" nor
    "Q_arterly", yet [search_by_title] returns the article for both. *)
Lemma search_by_title_matches_wildcards :
  (Article.search_by_title "%" one_article).1 = Ok [saved] ∧
  ¬ icontains "%" "Quarterly Report" ∧
  (Article.search_by_title "Q_arterly" one_article).1 = Ok [saved] ∧
  ¬ icontains "Q_arterly" "Quarterly Report".
Proof.
  split_and!; try (by vm_compute).
  - rewrite <- like_match_contains. by vm_compute.
  - rewrite <- like_match_contains. by vm_compute.
Qed.

Lemma like_match_three_any s : like_match [LAny; LAny; LAny] s = true.
Proof.
  apply like_match_any. exists EmptyString, s. split; [done|].
  apply like_match_any. exists EmptyString, s. split; [done|].
  apply like_match_only_any.
Qed.

Lemma like_match_any_one_any s :
  like_match [LAny; LOne; LAny] s = true ↔ s ≠ EmptyString.
Proof.
  rewrite like_match_any. split.
  - intros (pre & post & -> & H). destruct post as [|c post]; [done|].
    by destruct pre.
  - intros Hs. destruct s as [|c s]; [done|].
    exists EmptyString, (String c s). split; [done|].
    apply like_match_only_any.
Qed.

(** C10: the query goes into the pattern as it is, between two [%]: the
    pattern is read by [like_tokens], where [%] and [_] are wildcards.  So,
    with a connection and the table, [search_by_title "%"] answers with every
    row of the table, those whose title holds no [%] included, and
    [search_by_title "_"] with every row whose title is not empty. *)
Theorem search_by_title_does_not_escape (w : world) (t : table) :
  online w → committed w = Some t →
  (∀ q toks, like_tokens ("%" +:+ q +:+ "%") = Some toks →
     Article.search_by_title q w =
       (Ok (articles_of
              (order_by_created_desc
                 (filter (λ p, like_match toks (col_title p.2) = true)
                    (map_to_list (rows t))))),
        finished w (committed w) (articles_id_seq w))) ∧
  like_tokens ("%" +:+ "%" +:+ "%") = Some [LAny; LAny; LAny] ∧
  like_tokens ("%" +:+ "_" +:+ "%") = Some [LAny; LOne; LAny] ∧
  (∃ l, (Article.search_by_title "%" w).1 = Ok (articles_of l) ∧
     l ≡ₚ map_to_list (rows t) ∧
     ∀ i r, rows t !! i = Some r → ¬ icontains "%" (col_title r) → (i, r) ∈ l) ∧
  (∃ l, (Article.search_by_title "_" w).1 = Ok (articles_of l) ∧
     ∀ i r, (i, r) ∈ l ↔ rows t !! i = Some r ∧ col_title r ≠ EmptyString).
Proof.
  intros Hon Ht.
  assert (∀ q toks, like_tokens ("%" +:+ q +:+ "%") = Some toks →
     Article.search_by_title q w =
       (Ok (articles_of
              (order_by_created_desc
                 (filter (λ p, like_match toks (col_title p.2) = true)
                    (map_to_list (rows t))))),
        finished w (committed w) (articles_id_seq w))) as Hcall.
  { intros q toks Hq. rewrite search_by_title_call, decide_True by done.
    by rewrite Ht, Hq. }
  split_and!; [exact Hcall|done|done| |].
  - eexists. rewrite (Hcall "%" _ eq_refl). split; [done|].
    assert (∀ i r,
      (i, r) ∈ order_by_created_desc
                 (filter (λ p, like_match [LAny; LAny; LAny] (col_title p.2) = true)
                    (map_to_list (rows t))) ↔ rows t !! i = Some r) as Hin.
    { intros i r. unfold order_by_created_desc. rewrite merge_sort_Permutation.
      rewrite list_elem_of_filter, elem_of_map_to_list.
      change (col_title (i, r).2) with (col_title r).
      rewrite like_match_three_any. tauto. }
    split.
    + apply NoDup_Permutation.
      * unfold order_by_created_desc. rewrite merge_sort_Permutation.
        apply NoDup_filter, NoDup_map_to_list.
      * apply NoDup_map_to_list.
      * intros [i r]. by rewrite Hin, elem_of_map_to_list.
    + intros i r Hr _. by apply Hin.
  - eexists. rewrite (Hcall "_" _ eq_refl). split; [done|].
    intros i r. unfold order_by_created_desc. rewrite merge_sort_Permutation.
    rewrite list_elem_of_filter, elem_of_map_to_list.
    change (col_title (i, r).2) with (col_title r).
    rewrite like_match_any_one_any. tauto.
Qed.

Lemma search_by_title_does_not_escape_witness :
  online one_article ∧
  ¬ icontains "%" "Quarterly Report" ∧
  (Article.search_by_title "%" one_article).1 = Ok [saved] ∧
  (Article.search_by_title "_" one_article).1 = Ok [saved].
Proof.
  pose (r := Row "Quarterly Report" (Some EmptyString) (Some "http://a/1") 100 100).
  pose (t := Table {[ 1 := r ]}
               ["idx_articles_title"; "idx_articles_direct_link"]).
  assert (online one_article) as Hon by (vm_compute; discriminate).
  assert (committed one_article = Some t) as Ht by (by vm_compute).
  destruct (search_by_title_does_not_escape one_article t Hon Ht)
    as (Hcall & Hpc & Hus & _ & _).
  split_and!.
  - exact Hon.
  - rewrite <- like_match_contains. by vm_compute.
  - rewrite (Hcall "%" _ Hpc). by vm_compute.
  - rewrite (Hcall "_" _ Hus). by vm_compute.
Defined.


(** * More of the code *)

(** ** The reading calls *)

Lemma test_connection_call w :
  test_connection w =
  if decide (online w)
  then (Ok true, finished w (committed w) (articles_id_seq w))
  else (Ok false, refused w).
Proof.
  unfold test_connection.
  rewrite (query_call SelectOne (λ c, bool_decide (is_Some (fetchone c))) false).
  by case_decide.
Qed.

Lemma get_by_id_call i w :
  Article.get_by_id i w =
  if decide (online w) then
    match committed w with
    | Some t =>
        (Ok (article_of i <$> rows t !! i),
         finished w (committed w) (articles_id_seq w))
    | None => (Ok None, abandoned w (articles_id_seq w))
    end
  else (Ok None, refused w).
Proof.
  unfold Article.get_by_id.
  rewrite (query_call (SelectById i) (λ c, Article.from_dict <$> fetchone c) None).
  case_decide; [|done]. destruct (committed w) as [t|]; simpl; [|done].
  by destruct (rows t !! i).
Qed.

Lemma get_by_link_call l w :
  Article.get_by_link l w =
  if decide (online w) then
    match committed w with
    | Some t =>
        (Ok (Article.from_dict <$>
               head (as_article_rows
                       (filter (λ p, is_Some l ∧ col_direct_link p.2 = l)
                          (map_to_list (rows t))))),
         finished w (committed w) (articles_id_seq w))
    | None => (Ok None, abandoned w (articles_id_seq w))
    end
  else (Ok None, refused w).
Proof.
  unfold Article.get_by_link.
  rewrite (query_call (SelectByLink l) (λ c, Article.from_dict <$> fetchone c) None).
  case_decide; [|done]. by destruct (committed w) as [t|].
Qed.

Lemma reading_call_store (c : call) (w : world) :
  reading c = true → store (after c w) = store w.
Proof.
  destruct c; try discriminate; intros _; simpl; by apply query_call_store.
Qed.

(** X1: the calls that only read leave the committed table, the sequence
    and the clock as they were: [test_connection], [table_exists],
    [get_table_structure], [get_all], [get_by_id], [get_by_link] and
    [search_by_title] write nothing, whether they answer or fall into their
    [except] branch, one after the other in any number and order. *)
Theorem reading_calls_write_nothing (cs : list call) (w : world) :
  Forall (λ c, reading c = true) cs → store (after_all cs w) = store w.
Proof.
  intros Hcs. revert w.
  induction Hcs as [|c cs Hc _ IH]; intros w; [done|].
  unfold after_all in *. simpl. rewrite IH. by apply reading_call_store.
Qed.

Lemma reading_calls_write_nothing_witness :
  store (after_all [SearchByTitle "report"; GetById 7; GetAll; TableExists]
           two_articles) = store two_articles.
Proof.
  apply reading_calls_write_nothing. repeat constructor.
Defined.

(** X2: no call lets an exception out.  Whatever the server does (refuses
    the connection, lacks the table, rejects the statement), each of the ten
    calls returns a value: the error is turned into the [False], [None] or
    empty list of its [except] branch. *)
Theorem no_call_raises (c : call) (w : world) : ∃ a, answer_of c w = Ok a.
Proof.
  destruct c as [| | | |a| | | |a|q]; simpl.
  - rewrite test_connection_call. case_decide; eauto.
  - rewrite table_exists_call. case_decide; eauto.
  - rewrite create_table_call. case_decide; [|eauto].
    rewrite table_exists_call. case_decide; eauto.
  - rewrite get_table_structure_call. case_decide; eauto.
  - destruct (save_total a w) as (o & s & ->). eauto.
  - rewrite get_all_call. case_decide; [|eauto]. destruct (committed w); eauto.
  - rewrite get_by_id_call. case_decide; [|eauto]. destruct (committed w); eauto.
  - rewrite get_by_link_call. case_decide; [|eauto]. destruct (committed w); eauto.
  - destruct (delete_outcome_call a w); eauto.
  - rewrite search_by_title_call. case_decide; [|eauto].
    destruct (committed w); [|eauto]. destruct (like_tokens _); eauto.
Qed.

(** ** Saving and reading back *)

Lemma varchar_fits n s : (String.length s ≤ n)%nat → varchar n s = Some s.
Proof. intros H. unfold varchar. by rewrite decide_True. Qed.

Lemma fit_fits n v :
  (∀ s, v = Some s → (String.length s ≤ n)%nat) → fit n v = Some v.
Proof.
  intros H. destruct v as [s|]; simpl; [|done].
  by rewrite varchar_fits by auto.
Qed.

Lemma link_taken_false m i l :
  link_taken m i l = false →
  ∀ j r, m !! j = Some r → col_direct_link r = Some l → j = i.
Proof.
  unfold link_taken. intros H%bool_decide_eq_false j r Hj Hl.
  destruct (decide (j = i)) as [|Hne]; [done|].
  destruct H. by exists j, r.
Qed.


(** What a successful insert leaves behind, with the state of the unique
    index. *)
Lemma insert_returns_free a w i a' w' :
  truthy (Article.id a) = false →
  Article.save (a, w) = (Ok (Some i), (a', w')) →
  ∃ t ti' dl',
    i = articles_id_seq w ∧ committed w = Some t ∧ rows t !! i = None ∧
    fit 500 (Article.title a) = Some (Some ti') ∧
    fit 1000 (Article.direct_link a) = Some dl' ∧
    link_free (rows t) i dl' ∧
    w' = finished w
           (Some (Table (<[i := Row ti' (Article.raw_content a) dl'
                                  (clock w) (clock w)]> (rows t)) (indexes t)))
           (i + 1) ∧
    a' = Article.Make (Some i) (Article.title a) (Article.raw_content a)
           (Article.direct_link a) (Some (clock w)) (Some (clock w)).
Proof.
  intros Hid. rewrite save_dispatch, Hid.
  destruct (_insert_outcome a w) as [| | |t ti' dl']; try discriminate.
  intros [= <- <- <-]. by exists t, ti', dl'.
Qed.

(** X3: an Article that [save] has inserted is read back by [get_by_id]
    under the id [save] returned, equal to [self] as [save] left it, id and
    timestamps included, when its title and link are within the widths of
    their columns. *)
Theorem get_by_id_reads_what_save_wrote (a : Article.t) (w : world) i a' w' :
  truthy (Article.id a) = false →
  (∀ s, Article.title a = Some s → (String.length s ≤ 500)%nat) →
  (∀ s, Article.direct_link a = Some s → (String.length s ≤ 1000)%nat) →
  Article.save (a, w) = (Ok (Some i), (a', w')) →
  online w' →
  (Article.get_by_id i w').1 = Ok (Some a').
Proof.
  intros Hid Hti Hdl Hsave Hon.
  destruct (insert_returns_free a w i a' w' Hid Hsave)
    as (t & ti' & dl' & -> & Ht & Hpk & Hfti & Hfdl & Hfree & -> & ->).
  rewrite (fit_fits 500 _ Hti) in Hfti. rewrite (fit_fits 1000 _ Hdl) in Hfdl.
  injection Hfti as Hfti. injection Hfdl as <-.
  rewrite get_by_id_call, decide_True by done. simpl.
  rewrite lookup_insert_eq. simpl. unfold article_of. simpl. by rewrite Hfti.
Qed.

Lemma get_by_id_reads_what_save_wrote_witness :
  (Article.get_by_id 1
     (Article.save (draft "Quarterly Report" "http://a/1", empty_db)).2.2).1 =
  Ok (Some (Article.save (draft "Quarterly Report" "http://a/1", empty_db)).2.1).
Proof.
  pose (a := draft "Quarterly Report" "http://a/1").
  apply (get_by_id_reads_what_save_wrote a empty_db 1 _ _ eq_refl).
  - intros s [= <-]. vm_compute. lia.
  - intros s [= <-]. vm_compute. lia.
  - by vm_compute.
  - vm_compute. discriminate.
Defined.



(** ** Looking up what is not there *)

(** X5: [get_by_id] of an id no row has, and [get_by_link] of a link no row
    holds, return [None]; so does [get_by_link(None)] on any table, since
    [direct_link = NULL] holds of no row, even one whose link is NULL. *)
Theorem lookups_of_absent_keys (w : world) :
  (∀ i, (∀ t, committed w = Some t → rows t !! i = None) →
     (Article.get_by_id i w).1 = Ok None) ∧
  (∀ l, (∀ t j r, committed w = Some t → rows t !! j = Some r →
           col_direct_link r ≠ Some l) →
     (Article.get_by_link (Some l) w).1 = Ok None) ∧
  (Article.get_by_link None w).1 = Ok None.
Proof.
  split_and!.
  - intros i Habs. rewrite get_by_id_call. case_decide; [|done].
    destruct (committed w) as [t|] eqn:Ht; [|done]. simpl.
    by rewrite (Habs t eq_refl).
  - intros l Habs. rewrite get_by_link_call. case_decide; [|done].
    destruct (committed w) as [t|] eqn:Ht; [|done]. simpl.
    replace (filter _ _) with (@nil (Z * row)); [done|].
    symmetry. apply elem_of_nil_inv. intros [j r].
    rewrite list_elem_of_filter, elem_of_map_to_list. simpl.
    intros [[_ Hl] Hj]. by apply (Habs t j r).
  - rewrite get_by_link_call. case_decide; [|done].
    destruct (committed w) as [t|]; [|done]. simpl.
    replace (filter _ _) with (@nil (Z * row)); [done|].
    symmetry. apply elem_of_nil_inv. intros [j r].
    rewrite list_elem_of_filter. simpl. intros [[[? [=]] _] _].
Qed.

Lemma lookups_of_absent_keys_witness :
  (Article.get_by_id 7 one_article).1 = Ok None ∧
  (Article.get_by_link (Some "http://a/9") one_article).1 = Ok None.
Proof.
  destruct (lookups_of_absent_keys one_article) as (Hid & Hlink & _).
  assert (committed one_article =
          Some (Table {[ 1 := Row "Quarterly Report" (Some EmptyString)
                                  (Some "http://a/1") 100 100 ]}
                      ["idx_articles_title"; "idx_articles_direct_link"]))
    as Hc by (by vm_compute).
  split.
  - apply Hid. intros t Ht. rewrite Hc in Ht. injection Ht as <-.
    by vm_compute.
  - apply Hlink. intros t j r Ht Hj. rewrite Hc in Ht. injection Ht as <-.
    simpl in Hj. apply lookup_singleton_Some in Hj as [_ <-]. by simpl.
Defined.

(** ** [get_all] *)

(** X6: with a connection and the table, [get_all] returns one Article for
    each row, every row once, the later [created_at] first; without one of
    the two it returns the empty list. *)
Theorem get_all_returns_every_row_newest_first (w : world) :
  (∀ t, online w → committed w = Some t →
     ∃ l, (Article.get_all w).1 = Ok (articles_of l) ∧
       l ≡ₚ map_to_list (rows t) ∧ Sorted newer l ∧
       length (articles_of l) = size (rows t)) ∧
  (¬ online w ∨ committed w = None → (Article.get_all w).1 = Ok []).
Proof.
  split.
  - intros t Hon Ht. rewrite get_all_call, decide_True, Ht by done.
    eexists. split; [done|]. unfold order_by_created_desc. split_and!.
    + apply merge_sort_Permutation.
    + apply (Sorted_merge_sort newer).
    + unfold articles_of, as_article_rows. rewrite !length_fmap.
      by rewrite merge_sort_Permutation, length_map_to_list.
  - intros [Hoff|Hnone]; rewrite get_all_call.
    + by rewrite decide_False.
    + case_decide; [|done]. by rewrite Hnone.
Qed.

Lemma get_all_returns_every_row_newest_first_witness :
  (Article.get_all two_articles).1 =
  Ok [ Article.Make (Some 2) (Some "report card") (Some EmptyString)
         (Some "http://a/2") (Some 3700) (Some 3700);
       saved ] ∧
  (Article.get_all bare).1 = Ok [].
Proof.
  destruct (get_all_returns_every_row_newest_first bare) as [_ Hnone].
  split; [by vm_compute|]. apply Hnone. by right.
Defined.

(** ** Deleting *)

(** X7: once [delete] has returned [True], the row is gone for the readers:
    [get_by_id] of its id returns [None], and [get_all] returns no Article
    with that id. *)
Theorem deleted_article_is_not_read_back (a : Article.t) (w w' : world) i :
  Article.delete (a, w) = (Ok true, (a, w')) →
  Article.id a = Some i →
  (Article.get_by_id i w').1 = Ok None ∧
  ∃ l, (Article.get_all w').1 = Ok l ∧ ∀ b, b ∈ l → Article.id b ≠ Some i.
Proof.
  intros Hdel Hid.
  destruct (delete_outcome_call a w) as [| | | |t j old ? ? Ht Hj Hrow];
    try discriminate.
  injection Hdel as <-. assert (j = i) as -> by congruence.
  split.
  - rewrite get_by_id_call. case_decide; [|done]. simpl.
    by rewrite lookup_delete_eq.
  - rewrite get_all_call. case_decide; [|by exists []; split; [|intros ? ?%elem_of_nil]].
    simpl. eexists. split; [done|].
    intros b Hb. unfold as_article_rows in Hb.
    apply list_elem_of_fmap in Hb as (d & -> & Hd).
    apply list_elem_of_fmap in Hd as ([k r] & -> & Hk).
    unfold order_by_created_desc in Hk. rewrite merge_sort_Permutation in Hk.
    apply elem_of_map_to_list in Hk. simpl. intros [= ->].
    by rewrite lookup_delete_eq in Hk.
Qed.

Lemma deleted_article_is_not_read_back_witness :
  (Article.get_by_id 1 (Article.delete (saved, two_articles)).2.2).1 = Ok None ∧
  ∃ l, (Article.get_all (Article.delete (saved, two_articles)).2.2).1 = Ok l ∧
    ∀ b, b ∈ l → Article.id b ≠ Some 1.
Proof.
  apply (deleted_article_is_not_read_back saved two_articles); [|reflexivity].
  by vm_compute.
Defined.

(** ** The constraints of the schema *)

Lemma substring_length_le n s : (String.length (substring 0 n s) ≤ n)%nat.
Proof.
  revert s. induction n as [|n IH]; intros [|c s]; simpl; try lia.
  specialize (IH s). lia.
Qed.

Lemma varchar_width n s s' :
  varchar n s = Some s' → (String.length s' ≤ n)%nat.
Proof.
  unfold varchar. case_decide; [by intros [= <-]|].
  destruct (all_spaces _); [|done]. intros [= <-]. apply substring_length_le.
Qed.

Lemma fit_width n v v' :
  fit n v = Some v' → ∀ s, v' = Some s → (String.length s ≤ n)%nat.
Proof.
  destruct v as [x|]; simpl.
  - destruct (varchar n x) as [y|] eqn:Hy; [|done].
    intros [= <-] s [= <-]. by apply (varchar_width n x).
  - by intros [= <-] s.
Qed.

(** Writing a row under [i] keeps the constraints when its texts fit and no
    other row holds its link: the case of the INSERT and of the UPDATE. *)
Lemma write_keeps_constraints t i ti rc dl c u ix :
  links_unique t → widths_ok t →
  (String.length ti ≤ 500)%nat →
  (∀ s, dl = Some s → (String.length s ≤ 1000)%nat) →
  link_free (rows t) i dl →
  links_unique (Table (<[i := Row ti rc dl c u]> (rows t)) ix) ∧
  widths_ok (Table (<[i := Row ti rc dl c u]> (rows t)) ix).
Proof.
  intros Huniq Hwid Hti Hdl Hfree. split.
  - intros j k r1 r2 l. simpl.
    destruct (decide (j = i)) as [->|Hj], (decide (k = i)) as [->|Hk];
      rewrite ?lookup_insert_eq, ?lookup_insert_ne by done; try done.
    + intros [= <-] Hr2 Hl1 Hl2. simpl in Hl1. symmetry.
      by apply (link_taken_false _ _ l (Hfree l Hl1) k r2).
    + intros Hr1 [= <-] Hl1 Hl2. simpl in Hl2.
      by apply (link_taken_false _ _ l (Hfree l Hl2) j r1).
    + apply Huniq.
  - intros j r. simpl. destruct (decide (j = i)) as [->|Hj].
    + rewrite lookup_insert_eq. by intros [= <-].
    + rewrite lookup_insert_ne by done. apply Hwid.
Qed.

Lemma schema_ok_committed w w' :
  committed w' = committed w → schema_ok w → schema_ok w'.
Proof. intros Hc H t Ht. apply H. congruence. Qed.

Lemma after_keeps_schema c w : schema_ok w → schema_ok (after c w).
Proof.
  intros Hok.
  destruct (decide (reading c = true)) as [Hread|Hwrite].
  { apply (schema_ok_committed w); [|done].
    pose proof (reading_call_store c w Hread) as Hs.
    unfold store in Hs. congruence. }
  destruct c as [| | | |a| | | |a|q]; try done; simpl.
  - rewrite create_table_call. case_decide; [|by apply (schema_ok_committed w)].
    rewrite table_exists_call.
    case_decide; simpl; intros t [= <-]; split.
    all: try (intros i j r r' l Hi; simpl in Hi; by rewrite lookup_empty in Hi).
    all: intros i r Hi; simpl in Hi; by rewrite lookup_empty in Hi.
  - rewrite save_dispatch. destruct (truthy _).
    + destruct (_update_outcome a w)
        as [| | |t i old ti' dl' ? Ht Hid Hold Hti Hdl Hfree]; simpl;
        try (by apply (schema_ok_committed w)).
      destruct (Hok t Ht) as [Hu Hw]. intros t' [= <-].
      apply write_keeps_constraints; try done.
      * by apply (fit_width 500 _ _ Hti).
      * by apply (fit_width 1000 _ _ Hdl).
    + destruct (_insert_outcome a w)
        as [| | |t ti' dl' ? Ht Hti Hdl Hsq Hpk Hfree]; simpl;
        try (by apply (schema_ok_committed w)).
      destruct (Hok t Ht) as [Hu Hw]. intros t' [= <-].
      apply write_keeps_constraints; try done.
      * by apply (fit_width 500 _ _ Hti).
      * by apply (fit_width 1000 _ _ Hdl).
  - destruct (delete_outcome_call a w) as [| | | |t i old ? ? Ht]; simpl;
      try (by apply (schema_ok_committed w)).
    destruct (Hok t Ht) as [Hu Hw]. intros t' [= <-]. split.
    + intros j k r1 r2 l. simpl.
      intros [_ Hj]%lookup_delete_Some [_ Hk]%lookup_delete_Some.
      by apply (Hu j k r1 r2 l).
    + intros j r. simpl. intros [_ Hj]%lookup_delete_Some. by apply (Hw j).
Qed.

(** X8: the calls keep the constraints of the schema.  From a server
    without the table, or from any table that satisfies them, whatever
    calls are made and however time and the network go, no two rows ever hold
    the same non-NULL [direct_link], no title is longer than 500 characters
    and no link longer than 1000. *)
Theorem schema_constraints_hold (w w' : world) :
  schema_ok w → rtc step w w' → schema_ok w'.
Proof.
  intros Hok Hsteps. induction Hsteps as [|w1 w2 w3 Hstep _ IH]; [done|].
  apply IH. destruct Hstep as [c w1|d w1 Hd|l w1].
  - by apply after_keeps_schema.
  - by apply (schema_ok_committed w1).
  - by apply (schema_ok_committed w1).
Qed.

Lemma schema_constraints_hold_witness : schema_ok two_articles.
Proof.
  apply (schema_constraints_hold bare).
  - intros t Ht. discriminate.
  - apply (rtc_l _ _ _ _ (step_call CreateTableCall bare)).
    apply (rtc_l _ _ _ _ (step_call (Save (draft "Quarterly Report" "http://a/1")) _)).
    apply (rtc_l _ _ _ _ (step_time 3600 _ ltac:(lia))).
    apply rtc_once. apply (step_call (Save (draft "report card" "http://a/2"))).
Defined.

(** X9: [save] of an Article whose [direct_link] another row holds returns
    [None] and leaves the table as it was, on the insert path and on the
    update path alike (the row of [self.id] itself may keep its link). *)
Theorem save_with_taken_link_is_refused (a : Article.t) (w : world) t j r l :
  committed w = Some t → rows t !! j = Some r → col_direct_link r = Some l →
  Article.direct_link a = Some l → (String.length l ≤ 1000)%nat →
  Article.id a ≠ Some j →
  ∃ w', Article.save (a, w) = (Ok None, (a, w')) ∧ committed w' = committed w.
Proof.
  intros Ht Hj Hl Hlink Hlen Hne. rewrite save_dispatch.
  assert (fit 1000 (Article.direct_link a) = Some (Some l)) as Hfit.
  { rewrite Hlink. simpl. by rewrite varchar_fits. }
  destruct (truthy _).
  - destruct (_update_outcome a w)
      as [| | |t0 i old ti' dl' ? Ht0 Hid Hold Hti Hdl Hfree];
      try (by eexists).
    assert (t0 = t) as -> by congruence.
    assert (dl' = Some l) as -> by congruence.
    destruct Hne. rewrite Hid. f_equal. symmetry.
    by apply (link_taken_false _ _ l (Hfree l eq_refl) j r).
  - destruct (_insert_outcome a w)
      as [| | |t0 ti' dl' ? Ht0 Hti Hdl Hsq Hpk Hfree]; try (by eexists).
    assert (t0 = t) as -> by congruence.
    assert (dl' = Some l) as -> by congruence.
    assert (j = articles_id_seq w) as ->
      by (by apply (link_taken_false _ _ l (Hfree l eq_refl) j r)).
    congruence.
Qed.

Lemma save_with_taken_link_is_refused_witness :
  (Article.save (draft "Reporting standards" "http://a/1", two_articles)).1 =
    Ok None ∧
  (Article.save (Article.Make (Some 2) (Some "report card") None
                   (Some "http://a/1") None None, two_articles)).1 = Ok None.
Proof.
  pose (r := Row "Quarterly Report" (Some EmptyString) (Some "http://a/1") 100 100).
  assert (∃ t, committed two_articles = Some t ∧ rows t !! 1 = Some r)
    as (t & Ht & Hr).
  { eexists. split; [by vm_compute|]. by vm_compute. }
  split.
  - destruct (save_with_taken_link_is_refused
                (draft "Reporting standards" "http://a/1") two_articles t 1 r
                "http://a/1" Ht Hr eq_refl eq_refl)
      as (w' & -> & _); [vm_compute; lia|done|done].
  - destruct (save_with_taken_link_is_refused
                (Article.Make (Some 2) (Some "report card") None
                   (Some "http://a/1") None None) two_articles t 1 r
                "http://a/1" Ht Hr eq_refl eq_refl)
      as (w' & -> & _); [vm_compute; lia|done|done].
Defined.

(** ** The ids *)

Lemma after_keeps_sequence c w :
  c ≠ CreateTableCall → articles_id_seq w ≤ articles_id_seq (after c w).
Proof.
  intros Hc.
  destruct (decide (reading c = true)) as [Hread|Hwrite].
  { pose proof (reading_call_store c w Hread) as Hs.
    unfold store in Hs. injection Hs as _ Hs _. lia. }
  destruct c as [| | | |a| | | |a|q]; try done; simpl.
  - rewrite save_dispatch. destruct (truthy _).
    + destruct (_update_outcome a w); simpl; lia.
    + destruct (_insert_outcome a w) as [| |t sq e ? Ht Hrun|]; simpl; try lia.
      destruct (run_insert_seq (clock w) (articles_id_seq w) t (Article.title a)
                  (Article.raw_content a) (Article.direct_link a)) as [Hs|Hs];
        rewrite Hrun in Hs; simpl in Hs; lia.
  - destruct (delete_outcome_call a w); simpl; lia.
Qed.

Lemma step_keeping_step w w' : step_keeping w w' → step w w'.
Proof. intros [c ? _|d ? Hd|l ?]; by constructor. Qed.

Lemma steps_keeping_sequence w w' :
  rtc step_keeping w w' →
  articles_id_seq w ≤ articles_id_seq w' ∧ rtc step w w'.
Proof.
  induction 1 as [|w1 w2 w3 Hstep _ [IH1 IH2]]; [split; [lia|done]|].
  split.
  - assert (articles_id_seq w1 ≤ articles_id_seq w2); [|lia].
    destruct Hstep as [c w1 Hc|d w1 Hd|l w1]; simpl; try lia.
    by apply after_keeps_sequence.
  - eapply rtc_l; [by apply step_keeping_step|done].
Qed.

(** X10: an id is given out once.  A successful insert returns an id above
    every id in the table; and the id of a row, whether the row is later
    deleted or not, is below the id of every insert that succeeds afterwards,
    whatever calls come in between, as long as [create_table] is not among
    them. *)
Theorem ids_are_given_out_once (w : world) :
  world_ok w →
  (∀ a i a' w' t j r,
     truthy (Article.id a) = false →
     Article.save (a, w) = (Ok (Some i), (a', w')) →
     committed w = Some t → rows t !! j = Some r → j < i) ∧
  (∀ t i r w1 b j b' w2,
     committed w = Some t → rows t !! i = Some r →
     rtc step_keeping w w1 →
     truthy (Article.id b) = false →
     Article.save (b, w1) = (Ok (Some j), (b', w2)) →
     i < j).
Proof.
  intros Hok.
  assert (∀ t i r, committed w = Some t → rows t !! i = Some r →
            i < articles_id_seq w) as Hbelow.
  { intros t i r Ht Hr. destruct (Hok t Ht) as [_ Hrows].
    destruct (Hrows i r Hr) as [? _]. lia. }
  split.
  - intros a i a' w' t j r Hid Hsave Ht Hr.
    destruct (insert_returns a w i a' w' Hid Hsave) as (_ & _ & -> & _).
    by apply (Hbelow t j r).
  - intros t i r w1 b j b' w2 Ht Hr Hsteps Hid Hsave.
    destruct (insert_returns b w1 j b' w2 Hid Hsave) as (_ & _ & -> & _).
    destruct (steps_keeping_sequence w w1 Hsteps) as [Hseq _].
    specialize (Hbelow t i r Ht Hr). lia.
Qed.

Lemma ids_are_given_out_once_witness :
  world_ok two_articles ∧
  (Article.delete (Article.Make (Some 2) None None None None None,
                   two_articles)).1 = Ok true ∧
  (Article.save (draft "Reporting standards" "http://a/3",
                 after (Delete (Article.Make (Some 2) None None None None None))
                   two_articles)).1 = Ok (Some 3) ∧
  2 < 3.
Proof.
  assert (world_ok two_articles) as Hok
    by (apply after_keeps_ok, one_article_ok).
  destruct (ids_are_given_out_once two_articles Hok) as [_ Hlater].
  pose (gone := Article.Make (Some 2) None None None None None).
  pose (b := draft "Reporting standards" "http://a/3").
  assert (∃ t r, committed two_articles = Some t ∧ rows t !! 2 = Some r)
    as (t & r & Ht & Hr).
  { eexists _, _. split; by vm_compute. }
  assert (Article.save (b, after (Delete gone) two_articles) =
          (Ok (Some 3), ((Article.save (b, after (Delete gone) two_articles)).2.1,
                         (Article.save (b, after (Delete gone) two_articles)).2.2)))
    as Hsave by (by vm_compute).
  split_and!; [exact Hok|by vm_compute|by vm_compute|].
  refine (Hlater t 2 r (after (Delete gone) two_articles) b 3 _ _ Ht Hr _
            eq_refl Hsave).
  apply rtc_once. by apply (keeping_call (Delete gone)).
Defined.



(** ** More on [search_by_title] *)

Lemma filter_all {A} (P : A → Prop) `{∀ x, Decision (P x)} (l : list A) :
  (∀ x, x ∈ l → P x) → filter P l = l.
Proof.
  induction l as [|x l IH]; intros Hall; [done|].
  rewrite filter_cons_True by (apply Hall; left).
  f_equal. apply IH. intros y Hy. apply Hall. by right.
Qed.

Lemma like_match_two_any s : like_match [LAny; LAny] s = true.
Proof.
  apply like_match_any. exists EmptyString, s. split; [done|].
  apply like_match_only_any.
Qed.

(** X12: the empty query selects everything: [search_by_title("")] returns
    what [get_all] returns, the same Articles in the same order, in every
    world, and the empty list where [get_all] does. *)
Theorem search_for_nothing_is_get_all (w : world) :
  (Article.search_by_title EmptyString w).1 = (Article.get_all w).1.
Proof.
  rewrite search_by_title_call, get_all_call. case_decide; [|done].
  destruct (committed w) as [t|]; [|done].
  change (like_tokens ("%" +:+ EmptyString +:+ "%")) with (Some [LAny; LAny]).
  simpl. rewrite filter_all; [done|].
  intros [i r] _. simpl. apply like_match_two_any.
Qed.

Lemma ieq_left c c' d : ieq c c' = true → ieq c d = ieq c' d.
Proof. unfold ieq. intros H%bool_decide_eq_true. by rewrite H. Qed.

Lemma like_match_literal_case q q' p s :
  ieq_string q q' = true →
  like_match (literal q ++ p) s = like_match (literal q' ++ p) s.
Proof.
  revert q' s. induction q as [|c q IH]; intros [|c' q'] s; try done.
  simpl. intros [Hc Hq]%andb_true_iff.
  destruct s as [|d s]; [done|].
  by rewrite (ieq_left c c' d Hc), (IH q' s Hq).
Qed.

Lemma like_match_any_ext p p' :
  (∀ s, like_match p s = like_match p' s) →
  ∀ s, like_match (LAny :: p) s = like_match (LAny :: p') s.
Proof.
  intros Hp s. induction s as [|c s IH].
  - rewrite (like_match_any_unfold p), (like_match_any_unfold p').
    by rewrite Hp.
  - rewrite (like_match_any_unfold p (String c s)),
      (like_match_any_unfold p' (String c s)).
    by rewrite Hp, IH.
Qed.

(** X13: the case of the letters in the query does not matter.  Two queries
    without [%], [_] and backslash that differ only in the case of letters
    get the same answer from [search_by_title], in every world. *)
Theorem search_ignores_case_of_query (q q' : string) (w : world) :
  plain q = true → plain q' = true → ieq_string q q' = true →
  Article.search_by_title q w = Article.search_by_title q' w.
Proof.
  intros Hq Hq' Heq. rewrite !search_by_title_call.
  rewrite (like_tokens_search_plain q Hq), (like_tokens_search_plain q' Hq').
  case_decide; [|done]. destruct (committed w) as [t|]; [|done].
  do 4 f_equal. unfold order_by_created_desc. f_equal.
  apply list_filter_iff. intros [i r].
  change (col_title (i, r).2) with (col_title r).
  by rewrite (like_match_any_ext _ _
                (λ s, like_match_literal_case q q' [LAny] s Heq) (col_title r)).
Qed.

Lemma search_ignores_case_of_query_witness :
  Article.search_by_title "report" two_articles =
    Article.search_by_title "REPORT" two_articles ∧
  length (default [] (match (Article.search_by_title "REPORT" two_articles).1 with
                      | Ok l => Some l | Raise _ => None end)) = 2%nat.
Proof.
  split; [|by vm_compute].
  apply search_ignores_case_of_query; by vm_compute.
Defined.

(** ** [app.py] *)

Lemma health_check_call w :
  health_check w =
  let w1 := (test_connection w).2 in
  (Ok (Health (if decide (online w) then "healthy" else "unhealthy")
              (if decide (online w) then "connected" else "disconnected")
              (bool_decide (online w1 ∧ is_Some (committed w))),
       200),
   (Article.table_exists w1).2).
Proof.
  unfold health_check.
  cbv beta delta [try_except mbind M_bind bind mret M_ret ret].
  rewrite test_connection_call.
  case_decide; simpl; rewrite table_exists_call; case_decide; simpl.
  - do 4 f_equal. apply bool_decide_ext. tauto.
  - do 4 f_equal. symmetry. apply bool_decide_eq_false_2. tauto.
  - do 4 f_equal. apply bool_decide_ext. tauto.
  - do 4 f_equal. symmetry. apply bool_decide_eq_false_2. tauto.
Qed.

(** X14: [GET /health] always answers 200 with the three keys: its
    [except] branch, the only source of a 500, is never taken, because
    neither [test_connection] nor [table_exists] raises.  [status] tells
    whether the first connection attempt succeeded; [table_exists] is true
    when the second did and the table is there, so it may be false for a
    table that exists, and true beside [unhealthy].  The table is not
    touched. *)
Theorem health_check_always_answers (w : world) :
  (∃ status database e,
     (health_check w).1 = Ok (Health status database e, 200) ∧
     (status = "healthy" ↔ online w) ∧
     (database = "connected" ↔ online w) ∧
     (e = true ↔ online (test_connection w).2 ∧ is_Some (committed w))) ∧
  store (health_check w).2 = store w.
Proof.
  rewrite health_check_call. cbv zeta. split.
  - eexists _, _, _. split; [done|]. split_and!.
    + by case_decide.
    + by case_decide.
    + by rewrite bool_decide_eq_true.
  - simpl. etrans.
    + apply (reading_call_store TableExists _ eq_refl).
    + apply (reading_call_store TestConnection _ eq_refl).
Qed.

Lemma startup_call w :
  startup w =
  let w1 := (test_connection w).2 in
  let w2 := (Article.table_exists w1).2 in
  if decide (online w) then
    if decide (online w1 ∧ is_Some (committed w)) then (Ok (), w2)
    else (Ok (), (Article.create_table w2).2)
  else (Ok (), w1).
Proof.
  unfold startup. cbv beta delta [mbind M_bind bind mret M_ret ret].
  rewrite test_connection_call. case_decide as Hon; simpl; [|done].
  rewrite table_exists_call. case_decide as Hon1; simpl.
  - destruct (committed w) as [t|] eqn:Ht; simpl.
    + rewrite decide_True; [done|]. split; [done|by eexists].
    + rewrite decide_False by (by intros [_ []]).
      rewrite create_table_call. case_decide; [|done].
      rewrite table_exists_call. by case_decide.
  - rewrite decide_False by (by intros []).
    rewrite create_table_call. case_decide; [|done].
    rewrite table_exists_call. by case_decide.
Qed.

Lemma create_table_leaves_fresh w :
  online w → committed (Article.create_table w).2 = Some fresh_table.
Proof.
  intros Hon. rewrite create_table_call, decide_True by done.
  rewrite table_exists_call. by case_decide.
Qed.

(** X15: the start-up sequence of [app.py] never raises and decides on the
    answers of [test_connection] and [table_exists] alone.  With the first
    two connection attempts successful an existing table is left as it is; a
    missing one is created when the third succeeds too.  But [table_exists]
    answers [False] as well when its own connection fails: when the first
    attempt succeeds, the second fails and the third succeeds,
    [create_table] runs and an existing table is dropped with its rows.
    With the first attempt failing nothing is done. *)
Theorem startup_creates_or_keeps (w : world) :
  let w1 := (test_connection w).2 in
  let w2 := (Article.table_exists w1).2 in
  (∃ w', startup w = (Ok (), w')) ∧
  (∀ t, online w → online w1 → committed w = Some t →
     committed (startup w).2 = Some t) ∧
  (online w → online w1 → online w2 → committed w = None →
     committed (startup w).2 = Some fresh_table) ∧
  (online w → ¬ online w1 → online w2 →
     committed (startup w).2 = Some fresh_table) ∧
  (¬ online w → committed (startup w).2 = committed w).
Proof.
  intros w1 w2. rewrite startup_call. fold w1 w2. cbv zeta. fold w1 w2.
  assert (store w1 = store w) as Hs1
    by apply (reading_call_store TestConnection w eq_refl).
  assert (store w2 = store w1) as Hs2
    by apply (reading_call_store TableExists w1 eq_refl).
  unfold store in Hs1, Hs2. injection Hs1 as Hc1 _ _. injection Hs2 as Hc2 _ _.
  split_and!.
  - repeat case_decide; eauto.
  - intros t Hon Hon1 Ht. rewrite decide_True by done.
    rewrite decide_True by (split; [done|by eexists]). simpl. congruence.
  - intros Hon Hon1 Hon2 Hnone. rewrite decide_True by done.
    rewrite decide_False by (rewrite Hnone; by intros [_ []]). simpl.
    by apply create_table_leaves_fresh.
  - intros Hon Hoff1 Hon2. rewrite decide_True by done.
    rewrite decide_False by (by intros []). simpl.
    by apply create_table_leaves_fresh.
  - intros Hoff. rewrite decide_False by done. simpl. congruence.
Qed.

Lemma startup_creates_or_keeps_witness :
  row_count (committed two_articles) = 2%nat ∧
  committed (startup two_articles).2 = committed two_articles ∧
  row_count (committed flaky) = 2%nat ∧
  committed (startup flaky).2 = Some fresh_table.
Proof.
  destruct (startup_creates_or_keeps two_articles) as (_ & Hkeep & _).
  destruct (startup_creates_or_keeps flaky) as (_ & _ & _ & Hdrop & _).
  split_and!.
  - by vm_compute.
  - assert (∃ t, committed two_articles = Some t) as [t Ht]
      by (eexists; by vm_compute).
    rewrite Ht. apply Hkeep; [vm_compute; discriminate|vm_compute; discriminate|done].
  - by vm_compute.
  - apply Hdrop.
    + vm_compute. discriminate.
    + vm_compute. intros H. by apply H.
    + vm_compute. discriminate.
Defined.

(** ** Saving again *)




(** X17: an Article is inserted once.  After [save] has inserted it, [self]
    carries its id, so a further [save] of [self], in whatever world, takes
    the update path and leaves the number of rows as it is. *)
Theorem second_save_is_an_update (a : Article.t) (w : world) i a' w' (w1 : world) :
  world_ok w →
  truthy (Article.id a) = false →
  Article.save (a, w) = (Ok (Some i), (a', w')) →
  Article.save (a', w1) = Article._update (a', w1) ∧
  row_count (committed (Article.save (a', w1)).2.2) = row_count (committed w1).
Proof.
  intros Hok Hid Hsave.
  destruct (insert_returns a w i a' w' Hid Hsave)
    as (t & r & -> & Ht & _ & _ & _ & _ & _ & _ & _ & ->).
  destruct (Hok t Ht) as [Hseq _].
  assert (truthy (Some (articles_id_seq w)) = true) as Htr.
  { simpl. apply bool_decide_eq_true_2. lia. }
  set (a2 := Article.Make _ _ _ _ _ _).
  rewrite save_dispatch.
  assert (truthy (Article.id a2) = true) as -> by exact Htr.
  split; [done|].
  destruct (_update_outcome a2 w1) as [| | |t1 j old ti' dl' ? Ht1 ? Hold];
    simpl; try done.
  rewrite Ht1. simpl. rewrite map_size_insert_Some; [done|by eexists].
Qed.

Lemma second_save_is_an_update_witness :
  row_count (committed one_article) = 1%nat ∧
  row_count (committed (Article.save (saved, one_article)).2.2) = 1%nat.
Proof.
  split; [by vm_compute|].
  pose (a := draft "Quarterly Report" "http://a/1").
  assert (Article.save (a, empty_db) = (Ok (Some 1), (saved, (Article.save (a, empty_db)).2.2)))
    as Hsave by (by vm_compute).
  destruct (second_save_is_an_update a empty_db 1 saved _ one_article
              empty_db_ok eq_refl Hsave) as [_ Hcount].
  rewrite Hcount. by vm_compute.
Defined.

(** The id [i] is out of use: no row has it and the sequence is past it. *)
Lemma retired_id_stays_retired i w w' :
  (∀ t, committed w = Some t → rows t !! i = None) → i < articles_id_seq w →
  rtc step_keeping w w' →
  (∀ t, committed w' = Some t → rows t !! i = None) ∧ i < articles_id_seq w'.
Proof.
  intros Hnone Hlt Hsteps. revert Hnone Hlt.
  induction Hsteps as [|w1 w2 w3 Hstep _ IH]; [done|]. intros Hnone Hlt.
  apply IH.
  - destruct Hstep as [c w1 Hc|d w1 Hd|l w1]; [|done|done].
    destruct (decide (reading c = true)) as [Hread|Hwrite].
    { pose proof (reading_call_store c w1 Hread) as Hs.
      unfold store in Hs. injection Hs as Hs _ _. intros t Ht. apply Hnone.
      congruence. }
    destruct c as [| | | |a| | | |a|q]; try done; simpl.
    + rewrite save_dispatch. destruct (truthy _).
      * destruct (_update_outcome a w1)
          as [| | |t j old ti' dl' ? Ht ? Hold]; simpl; try done.
        intros t' [= <-]. simpl. rewrite lookup_insert_ne; [by apply Hnone|].
        intros ->. rewrite (Hnone t Ht) in Hold. discriminate.
      * destruct (_insert_outcome a w1) as [| | |t ti' dl' ? Ht]; simpl;
          try done.
        intros t' [= <-]. simpl. rewrite lookup_insert_ne; [by apply Hnone|lia].
    + destruct (delete_outcome_call a w1) as [| | | |t j old ? ? Ht]; simpl;
        try done.
      intros t' [= <-]. simpl. apply lookup_delete_None. right. by apply Hnone.
  - assert (articles_id_seq w1 ≤ articles_id_seq w2); [|lia].
    destruct Hstep as [c w1 Hc|d w1 Hd|l w1]; simpl; try lia.
    by apply after_keeps_sequence.
Qed.

(** X18: an Article that [delete] has removed cannot be saved again.
    [delete] leaves [self.id] in place, so [save] takes the update path, finds
    no row and returns [None] without writing; and since the id is not given
    out again, this stays so after any further calls other than
    [create_table]. *)
Theorem deleted_article_cannot_be_saved (a : Article.t) (w w1 w2 : world) :
  world_ok w →
  Article.delete (a, w) = (Ok true, (a, w1)) →
  rtc step_keeping w1 w2 →
  ∃ w3, Article.save (a, w2) = (Ok None, (a, w3)) ∧ committed w3 = committed w2.
Proof.
  intros Hok Hdel Hsteps.
  destruct (delete_outcome_call a w) as [| | | |t i old Htr ? Ht Hi Hrow];
    try discriminate.
  injection Hdel as <-.
  destruct (Hok t Ht) as [_ Hrows]. destruct (Hrows i old Hrow) as [[_ Hlt] _].
  assert (∀ t', committed
            (finished w (Some (Table (delete i (rows t)) (indexes t)))
               (articles_id_seq w)) = Some t' → rows t' !! i = None) as Hgone.
  { intros t' [= <-]. simpl. apply lookup_delete_eq. }
  destruct (retired_id_stays_retired i _ w2 Hgone Hlt Hsteps) as [Hnone _].
  apply update_absent; [done|].
  intros t' j Ht' Hj. assert (j = i) as -> by congruence. by apply Hnone.
Qed.

Lemma deleted_article_cannot_be_saved_witness :
  (Article.delete (saved, two_articles)).1 = Ok true ∧
  (Article.save (saved, after (Save (draft "Reporting standards" "http://a/3"))
                          (after (Delete saved) two_articles))).1 = Ok None.
Proof.
  split; [by vm_compute|].
  assert (world_ok two_articles) as Hok
    by (apply after_keeps_ok, one_article_ok).
  assert (Article.delete (saved, two_articles) =
          (Ok true, (saved, after (Delete saved) two_articles)))
    as Hdel by (by vm_compute).
  destruct (deleted_article_cannot_be_saved saved two_articles _
              (after (Save (draft "Reporting standards" "http://a/3"))
                 (after (Delete saved) two_articles)) Hok Hdel)
    as (w3 & -> & _); [|done].
  apply rtc_once.
  by apply (keeping_call (Save (draft "Reporting standards" "http://a/3"))).
Defined.
